(** * manhwa-ocr-bot: slicing, key rotation and formatting of [src/core.ts]

    A shallow embedding of [core.ts] and the properties of its three stages:
    - section 1 of the source, [formatText];
    - section 2, [findBestCutPosition] and the slicing loop of [processManhwa];
    - section 3, the failover loop over the API keys and the output pass.

    Representation choices.
    - A JavaScript string is a Rocq [string] holding its UTF-8 bytes.
    - Image coordinates and sizes are [Z]; array indices and counters are [nat].
    - A colour channel of a [Uint8ClampedArray] is a [Byte.byte].
    - The scores of the pixel scan are JavaScript Numbers; they are modelled
      by exact rationals ([Q]), without rounding.
    - [await]ed calls to the outside world (the Gemini client) are answered by
      an oracle indexed by slice and attempt.
    - Exceptions, console output and the mutable array [allBlocks] are threaded
      through a state-and-exception monad; [while] loops take fuel. *)

From Stdlib Require Import ZArith QArith List String Ascii Bool Lia.
From Stdlib Require Strings.Byte.
Import ListNotations.

Open Scope string_scope.
Open Scope Z_scope.

(* ================================================================== *)
(** ** JavaScript strings *)
(* ================================================================== *)

Module JsString.

(** UTF-8 encoding of one code point (surrogates are encoded like any other
    three-byte value). *)
Definition byte_of (n : N) : string := String (ascii_of_N n) EmptyString.

Definition utf8 (cp : N) : string :=
  (if cp <? 128 then byte_of cp
   else if cp <? 2048 then
     byte_of (192 + cp / 64) ++ byte_of (128 + cp mod 64)
   else if cp <? 65536 then
     byte_of (224 + cp / 4096) ++ byte_of (128 + (cp / 64) mod 64)
     ++ byte_of (128 + cp mod 64)
   else
     byte_of (240 + cp / 262144) ++ byte_of (128 + (cp / 4096) mod 64)
     ++ byte_of (128 + (cp / 64) mod 64) ++ byte_of (128 + cp mod 64))%N.

Definition rev (s : string) : string :=
  string_of_list_ascii (List.rev (list_ascii_of_string s)).

(** The code points that [String.prototype.trim] removes: ECMAScript
    WhiteSpace and LineTerminator. *)
Definition whiteSpaceCodePoints : list N :=
  [ 9; 10; 11; 12; 13; 32; 160; 5760;
    8192; 8193; 8194; 8195; 8196; 8197; 8198; 8199; 8200; 8201; 8202;
    8232; 8233; 8239; 8287; 12288; 65279 ]%N.

Definition whiteSpace : list string := map utf8 whiteSpaceCodePoints.

(** Length of the first pattern of [pats] that starts [s]. *)
Fixpoint matchAny (pats : list string) (s : string) : option nat :=
  match pats with
  | [] => None
  | p :: ps => if String.prefix p s then Some (String.length p)
               else matchAny ps s
  end.

(** Drops leading occurrences of the patterns; [skip] counts the bytes of
    the current occurrence that are still to be dropped. *)
Fixpoint dropWhileAny (pats : list string) (skip : nat) (s : string) : string :=
  match s with
  | EmptyString => EmptyString
  | String _ r =>
      match skip with
      | S k => dropWhileAny pats k r
      | O => match matchAny pats s with
             | Some (S n) => dropWhileAny pats n r
             | _ => s
             end
      end
  end.

Definition trimStart (s : string) : string := dropWhileAny whiteSpace 0 s.

(** The last bytes of well-formed UTF-8 text spell a white-space character
    exactly when the reversed text starts with the reversed encoding. *)
Definition trimEnd (s : string) : string :=
  rev (dropWhileAny (map rev whiteSpace) 0 (rev s)).

(** [s.trim()] *)
Definition trim (s : string) : string := trimEnd (trimStart s).

(** [s.replace(/p1|p2|.../g, '')]: every leftmost occurrence of the first
    alternative that matches is removed, scanning from left to right. *)
Fixpoint removeAll (pats : list string) (skip : nat) (s : string) : string :=
  match s with
  | EmptyString => EmptyString
  | String c r =>
      match skip with
      | S k => removeAll pats k r
      | O => match matchAny pats s with
             | Some (S n) => removeAll pats n r
             | _ => String c (removeAll pats 0 r)
             end
      end
  end.

(** The code points that the UTF-8 bytes of [s] spell: [acc] holds the bits
    read of a character of which [need] bytes are still to come. *)
Fixpoint codePoints (s : string) (acc : N) (need : nat) : list N :=
  match s with
  | EmptyString => match need with O => [] | S _ => [acc] end
  | String c r =>
      let b := N_of_ascii c in
      match need with
      | S k =>
          let acc' := (acc * 64 + b mod 64)%N in
          match k with
          | O => acc' :: codePoints r 0 0
          | S _ => codePoints r acc' k
          end
      | O =>
          (if b <? 128 then b :: codePoints r 0 0
           else if b <? 224 then codePoints r (b mod 32) 1
           else if b <? 240 then codePoints r (b mod 16) 2
           else codePoints r (b mod 8) 3)%N
      end
  end.

Definition isHighSurrogate (u : N) : bool := ((55296 <=? u) && (u <=? 56319))%N.
Definition isLowSurrogate (u : N) : bool := ((56320 <=? u) && (u <=? 57343))%N.

(** The UTF-16 code units of a JavaScript string: what [length], [slice]
    and indices count. *)
Definition toUnits (s : string) : list N :=
  flat_map (fun cp => (if cp <? 65536 then [cp]
                       else [55296 + (cp - 65536) / 1024;
                             56320 + (cp - 65536) mod 1024])%N)
           (codePoints s 0 0).

(** The string with the given code units; a high surrogate and the low one
    after it make one character. *)
Fixpoint fromUnits (us : list N) : string :=
  match us with
  | [] => EmptyString
  | u :: rest =>
      match rest with
      | lo :: rest' =>
          if isHighSurrogate u && isLowSurrogate lo
          then utf8 (65536 + (u - 55296) * 1024 + (lo - 56320))%N
               ++ fromUnits rest'
          else utf8 u ++ fromUnits rest
      | [] => utf8 u
      end
  end.

(** The last [n] elements of a list. *)
Definition lastUnits (n : nat) (us : list N) : list N :=
  skipn (List.length us - n) us.

(** [s.slice(-n)]: the last [n] code units of [s]. *)
Definition sliceLast (n : nat) (s : string) : string :=
  fromUnits (lastUnits n (toUnits s)).

End JsString.

(* ================================================================== *)
(** ** 1. Text formatting *)
(* ================================================================== *)

(** [enum TextBlockCategory]: a string enum; [categoryValue] gives the string
    each member stands for at run time. *)
Inductive TextBlockCategory : Type :=
| SPEECH | THOUGHT | BOX | NARRATION | SMALL_TEXT | SFX | SYSTEM | SCREAM | LINKED.

Definition categoryValue (c : TextBlockCategory) : string :=
  match c with
  | SPEECH => "speech" | THOUGHT => "thought" | BOX => "box"
  | NARRATION => "narration" | SMALL_TEXT => "small_text" | SFX => "SFX"
  | SYSTEM => "system" | SCREAM => "scream" | LINKED => "linked"
  end.

Definition allCategories : list TextBlockCategory :=
  [SPEECH; THOUGHT; BOX; NARRATION; SMALL_TEXT; SFX; SYSTEM; SCREAM; LINKED].

(** The prefix written by the [case] of each member. *)
Definition categoryPrefix (c : TextBlockCategory) : string :=
  match c with
  | SPEECH => "“”: " | THOUGHT => "(): " | BOX => "[]: "
  | NARRATION => "OT: " | SMALL_TEXT => "ST: " | SYSTEM => "{}: "
  | SCREAM => ":: " | LINKED => "//: " | SFX => "SFX: "
  end.

(** [formatText]: the [switch] compares [category] with the members' values by
    strict equality, in the order of the source. *)
Definition formatText (text : string) (category : string) : string :=
  let t := JsString.trim text in
  if String.eqb category (categoryValue SPEECH) then "“”: " ++ t
  else if String.eqb category (categoryValue THOUGHT) then "(): " ++ t
  else if String.eqb category (categoryValue BOX) then "[]: " ++ t
  else if String.eqb category (categoryValue NARRATION) then "OT: " ++ t
  else if String.eqb category (categoryValue SMALL_TEXT) then "ST: " ++ t
  else if String.eqb category (categoryValue SYSTEM) then "{}: " ++ t
  else if String.eqb category (categoryValue SCREAM) then ":: " ++ t
  else if String.eqb category (categoryValue LINKED) then "//: " ++ t
  else if String.eqb category (categoryValue SFX) then "SFX: " ++ t
  else t.

(* ================================================================== *)
(** ** JSON values and [JSON.parse] *)
(* ================================================================== *)

(** A decoded JSON value.  A number [JNum m e] stands for the double nearest
    to [m * 10^e]; the decimal itself is kept. *)
#[warnings="-register-all"]
Inductive json : Type :=
| JNull
| JBool (b : bool)
| JNum (mantissa exponent : Z)
| JStr (s : string)
| JArr (items : list json)
| JObj (members : list (string * json)).

Module JSON.

Definition isWs (c : ascii) : bool :=
  match c with
  | " "%char | "009"%char | "010"%char | "013"%char => true
  | _ => false
  end.

Fixpoint skipWs (s : string) : string :=
  match s with
  | String c r => if isWs c then skipWs r else s
  | EmptyString => EmptyString
  end.

Definition dropN (n : nat) (s : string) : string :=
  substring n (String.length s - n) s.

Definition digitOf (c : ascii) : option Z :=
  let n := Z.of_N (N_of_ascii c) in
  if (48 <=? n) && (n <=? 57) then Some (n - 48) else None.

Definition hexOf (c : ascii) : option N :=
  let n := N_of_ascii c in
  (if (48 <=? n) && (n <=? 57) then Some (n - 48)
   else if (65 <=? n) && (n <=? 70) then Some (n - 55)
   else if (97 <=? n) && (n <=? 102) then Some (n - 87)
   else None)%N.

(** Reads a run of decimal digits: its value, its length, the rest. *)
Fixpoint takeDigits (s : string) (acc count : Z) : Z * Z * string :=
  match s with
  | String c r =>
      match digitOf c with
      | Some d => takeDigits r (acc * 10 + d) (count + 1)
      | None => (acc, count, s)
      end
  | EmptyString => (acc, count, s)
  end.

Definition parseInt (s : string) : option (Z * string) :=
  match s with
  | String "0" r => Some (0, r)
  | String c _ =>
      match digitOf c with
      | Some _ => let '(v, _, r) := takeDigits s 0 0 in Some (v, r)
      | None => None
      end
  | EmptyString => None
  end.

Definition parseFrac (m : Z) (s : string) : option (Z * Z * string) :=
  match s with
  | String "." r =>
      let '(v, n, r') := takeDigits r 0 0 in
      if n =? 0 then None else Some (m * 10 ^ n + v, - n, r')
  | _ => Some (m, 0, s)
  end.

Definition parseExp (e : Z) (s : string) : option (Z * string) :=
  let digitsOf (sign : Z) (r : string) :=
    let '(v, n, r') := takeDigits r 0 0 in
    if n =? 0 then None else Some (e + sign * v, r') in
  match s with
  | String c r =>
      if (Ascii.eqb c "e" || Ascii.eqb c "E")%bool then
        match r with
        | String "+" r' => digitsOf 1 r'
        | String "-" r' => digitsOf (-1) r'
        | _ => digitsOf 1 r
        end
      else Some (e, s)
  | EmptyString => Some (e, s)
  end.

Definition parseNumber (s : string) : option (json * string) :=
  let '(sign, s1) := match s with
                     | String "-" r => (-1, r)
                     | _ => (1, s)
                     end in
  match parseInt s1 with
  | None => None
  | Some (i, s2) =>
      match parseFrac i s2 with
      | None => None
      | Some (m, e, s3) =>
          match parseExp e s3 with
          | None => None
          | Some (e', s4) => Some (JNum (sign * m) e', s4)
          end
      end
  end.

Fixpoint hexDigits (n : nat) (s : string) (acc : N) : option (N * string) :=
  match n with
  | O => Some (acc, s)
  | S k =>
      match s with
      | String c r =>
          match hexOf c with
          | Some d => hexDigits k r (acc * 16 + d)%N
          | None => None
          end
      | EmptyString => None
      end
  end.

Definition simpleEscape (c : ascii) : option string :=
  match c with
  | "034"%char => Some (String "034" EmptyString)
  | "\"%char => Some "\"
  | "/"%char => Some "/"
  | "b"%char => Some (JsString.byte_of 8)
  | "f"%char => Some (JsString.byte_of 12)
  | "n"%char => Some (JsString.byte_of 10)
  | "r"%char => Some (JsString.byte_of 13)
  | "t"%char => Some (JsString.byte_of 9)
  | _ => None
  end.

(** A [\uXXXX] escape whose four digits gave [cu]: a high surrogate followed
    by an escaped low surrogate makes one code point. *)
Definition unicodeEscape (cu : N) (s : string) : string * string :=
  let alone := (JsString.utf8 cu, s) in
  if ((55296 <=? cu) && (cu <=? 56319))%N then
    match s with
    | String "\" (String "u" r) =>
        match hexDigits 4 r 0 with
        | Some (lo, r') =>
            if ((56320 <=? lo) && (lo <=? 57343))%N
            then (JsString.utf8 (65536 + (cu - 55296) * 1024 + (lo - 56320))%N, r')
            else alone
        | None => alone
        end
    | _ => alone
    end
  else alone.

(** The characters of a string literal, after its opening quote. *)
Fixpoint parseChars (fuel : nat) (s acc : string) : option (string * string) :=
  match fuel with
  | O => None
  | S f =>
      match s with
      | EmptyString => None
      | String "034" r => Some (acc, r)
      | String "\" (String "u" r) =>
          match hexDigits 4 r 0 with
          | Some (cu, r') =>
              let '(bytes, r'') := unicodeEscape cu r' in
              parseChars f r'' (acc ++ bytes)
          | None => None
          end
      | String "\" (String e r) =>
          match simpleEscape e with
          | Some bytes => parseChars f r (acc ++ bytes)
          | None => None
          end
      | String "\" EmptyString => None
      | String c r =>
          if (N_of_ascii c <? 32)%N then None
          else parseChars f r (acc ++ String c EmptyString)
      end
  end.

Definition parseString (s : string) : option (string * string) :=
  parseChars (S (String.length s)) s EmptyString.

Definition parseLiteral (s : string) : option (json * string) :=
  if String.prefix "true" s then Some (JBool true, dropN 4 s)
  else if String.prefix "false" s then Some (JBool false, dropN 5 s)
  else if String.prefix "null" s then Some (JNull, dropN 4 s)
  else parseNumber s.

Fixpoint parseValue (fuel : nat) (s : string) : option (json * string) :=
  match fuel with
  | O => None
  | S f =>
      match skipWs s with
      | String "{" r =>
          match skipWs r with
          | String "}" r' => Some (JObj [], r')
          | _ => parseMembers f r []
          end
      | String "[" r =>
          match skipWs r with
          | String "]" r' => Some (JArr [], r')
          | _ => parseElements f r []
          end
      | String "034" r =>
          match parseString r with
          | Some (str, r') => Some (JStr str, r')
          | None => None
          end
      | s' => parseLiteral s'
      end
  end
with parseElements (fuel : nat) (s : string) (acc : list json)
  : option (json * string) :=
  match fuel with
  | O => None
  | S f =>
      match parseValue f s with
      | Some (v, r) =>
          match skipWs r with
          | String "," r' => parseElements f r' (acc ++ [v])
          | String "]" r' => Some (JArr (acc ++ [v]), r')
          | _ => None
          end
      | None => None
      end
  end
with parseMembers (fuel : nat) (s : string) (acc : list (string * json))
  : option (json * string) :=
  match fuel with
  | O => None
  | S f =>
      match skipWs s with
      | String "034" r =>
          match parseString r with
          | Some (k, r1) =>
              match skipWs r1 with
              | String ":" r2 =>
                  match parseValue f r2 with
                  | Some (v, r3) =>
                      match skipWs r3 with
                      | String "," r4 => parseMembers f r4 (acc ++ [(k, v)])
                      | String "}" r4 => Some (JObj (acc ++ [(k, v)]), r4)
                      | _ => None
                      end
                  | None => None
                  end
              | _ => None
              end
          | None => None
          end
      | _ => None
      end
  end.

(** [JSON.parse(s)]; [None] stands for the [SyntaxError] it throws. *)
Definition parse (s : string) : option json :=
  match parseValue (2 * String.length s + 2) s with
  | Some (v, r) =>
      match skipWs r with
      | EmptyString => Some v
      | _ => None
      end
  | None => None
  end.

End JSON.

(* ================================================================== *)
(** ** Effects: exceptions, console, the array [allBlocks] *)
(* ================================================================== *)

Inductive exn : Type :=
| IndexSizeError   (* [getImageData] on an empty rectangle *)
| ServiceError     (* the awaited [generateContent] rejects *)
| SyntaxError      (* [JSON.parse] *)
| TypeError.       (* a property of [null], a call of a non-function *)

(** What a run does that can be observed from outside its result. *)
Inductive event : Type :=
| GetImageData (sx sy sw sh : Z)
| NewClient (slice attempts keyIndex : nat) (apiKey : option string)
| ConsoleWarn (keyTail : string) (sliceNo : nat)
| ConsoleError (sliceNo : nat).

Record world : Type := mkWorld {
  allBlocks : list json;
  events : list event      (* oldest first *)
}.

Definition initWorld : world := {| allBlocks := []; events := [] |}.

Inductive outcome (A : Type) : Type :=
| Ret (a : A) (w : world)
| Throw (e : exn) (w : world)
| OutOfFuel.

Arguments Ret {A} a w.
Arguments Throw {A} e w.
Arguments OutOfFuel {A}.

Definition M (A : Type) : Type := world -> outcome A.

Definition ret {A} (a : A) : M A := fun w => Ret a w.

Definition bind {A B} (m : M A) (k : A -> M B) : M B :=
  fun w => match m w with
           | Ret a w' => k a w'
           | Throw e w' => Throw e w'
           | OutOfFuel => OutOfFuel
           end.

Definition throw {A} (e : exn) : M A := fun w => Throw e w.

Definition outOfFuel {A} : M A := fun _ => OutOfFuel.

(** [try { body } catch (e) { handler }]: the handler runs in the world the
    body left behind. *)
Definition tryCatch {A} (body : M A) (handler : exn -> M A) : M A :=
  fun w => match body w with
           | Throw e w' => handler e w'
           | r => r
           end.

(** The world after one more event. *)
Definition logged (e : event) (w : world) : world :=
  {| allBlocks := allBlocks w; events := events w ++ [e] |}.

Definition emit (e : event) : M unit := fun w => Ret tt (logged e w).

(** The world after [blocks] were appended to [allBlocks]. *)
Definition pushed (blocks : list json) (w : world) : world :=
  {| allBlocks := allBlocks w ++ blocks; events := events w |}.

(** [allBlocks.push(...blocks)] *)
Definition pushAll (blocks : list json) : M unit :=
  fun w => Ret tt (pushed blocks w).

Definition readAllBlocks : M (list json) := fun w => Ret (allBlocks w) w.

Declare Scope monad_scope.
Delimit Scope monad_scope with monad.
Notation "x <- m ;; k" := (bind m (fun x => k))
  (at level 61, m at next level, right associativity) : monad_scope.
Notation "m ;; k" := (bind m (fun _ => k))
  (at level 61, right associativity) : monad_scope.
Open Scope monad_scope.

(** [for (const x of l) body(x)] *)
Fixpoint forEachM {A} (l : list A) (body : A -> M unit) : M unit :=
  match l with
  | [] => ret tt
  | x :: l' => body x ;; forEachM l' body
  end.

(** The values [start, start+step, ...] below [stop] of
    [for (let v = 0; v < stop; v += step)]. *)
Definition countUp (stop step : Z) : list Z :=
  map (fun k => Z.of_nat k * step) (seq 0 (Z.to_nat ((stop + step - 1) / step))).

(* ================================================================== *)
(** ** 2. Smart slicing (pixel scanning) *)
(* ================================================================== *)

(** A canvas with the image drawn on it: [pixels x y c] is channel [c]
    (0 = R, 1 = G, 2 = B, 3 = A) of the pixel in column [x] of row [y]. *)
Record Canvas : Type := mkCanvas {
  width : Z;
  height : Z;
  pixels : Z -> Z -> Z -> Byte.byte
}.

(** Outside the canvas a pixel is transparent black. *)
Definition canvasPixel (c : Canvas) (x y ch : Z) : Byte.byte :=
  if (0 <=? x) && (x <? width c) && (0 <=? y) && (y <? height c)
  then pixels c x y ch else Byte.x00.

(** [ImageData.data]: RGBA bytes, row by row. *)
Record ImageData : Type := mkImageData { data : Z -> Byte.byte }.

(** [ctx.getImageData(sx, sy, sw, sh)] throws on an empty rectangle. *)
Definition getImageData (ctx : Canvas) (sx sy sw sh : Z) : M ImageData :=
  emit (GetImageData sx sy sw sh) ;;
  if (sw =? 0) || (sh =? 0) then throw IndexSizeError
  else ret {| data := fun idx =>
                canvasPixel ctx (sx + (idx / 4) mod sw) (sy + (idx / 4) / sw)
                            (idx mod 4) |}.

Definition channel (b : Byte.byte) : Z := Z.of_N (Byte.to_N b).

(** [Number.MAX_VALUE] = (2 - 2^-52) * 2^1023 *)
Definition MAX_VALUE : Q := inject_Z (2 ^ 1024 - 2 ^ 971).

Definition Qltb (a b : Q) : bool := negb (Qle_bool b a).

(** The inner loop: the energy of row [y] of the window. *)
Definition rowEnergy (d : ImageData) (width y : Z) : Z :=
  fold_left
    (fun rowEnergy x =>
       let idx := (y * width + x) * 4 in
       let r := channel (data d idx) in
       let g := channel (data d (idx + 1)) in
       let b := channel (data d (idx + 2)) in
       let distWhite := Z.abs (255 - r) + Z.abs (255 - g) + Z.abs (255 - b) in
       let distBlack := r + g + b in
       rowEnergy + Z.min distWhite distBlack)
    (countUp width 10) 0.

(** The score of row [y], in exact rationals.  The program rounds each
    operation to a double, which moves a score of this size by less than
    1e-11: it can change the choice between two rows only when their exact
    scores are closer than that. *)
Definition finalScore (d : ImageData) (width scanH y : Z) : Q :=
  let penalty := (inject_Z (scanH - y) * (2 # 10))%Q in
  (inject_Z (rowEnergy d width y) / (inject_Z width / inject_Z 10) + penalty)%Q.

(** One turn of the outer loop on the pair [(bestY, minEnergy)]. *)
Definition scanRow (d : ImageData) (width startScan scanH : Z)
    (st : Z * Q) (y : Z) : Z * Q :=
  let '(bestY, minEnergy) := st in
  let score := finalScore d width scanH y in
  if Qltb score minEnergy then (startScan + y, score) else (bestY, minEnergy).

Definition findBestCutPosition (ctx : Canvas) (width currentY maxH minH : Z)
  : M Z :=
  let remaining := height ctx - currentY in
  if remaining <=? maxH then ret remaining
  else
    let startScan := minH in
    let endScan := maxH in
    let scanH := endScan - startScan in
    imgData <- getImageData ctx 0 (currentY + startScan) width scanH ;;
    ret (fst (fold_left (scanRow imgData width startScan scanH)
                        (countUp scanH 4) (endScan, MAX_VALUE))).

Definition MAX_SLICE : Z := 3000.
Definition MIN_SLICE : Z := 1500.

(** One element of [slices]: the band of the canvas drawn into it. *)
Record Slice : Type := mkSlice { startY : Z; sliceHeight : Z }.

(** [while (currentY < image.height) { ... }] *)
Fixpoint sliceLoop (fuel : nat) (image : Canvas) (currentY : Z)
    (slices : list Slice) : M (list Slice) :=
  match fuel with
  | O => outOfFuel
  | S fuel' =>
      if currentY <? height image then
        sliceH <- findBestCutPosition image (width image) currentY
                                      MAX_SLICE MIN_SLICE ;;
        sliceLoop fuel' image (currentY + sliceH)
                  (slices ++ [{| startY := currentY; sliceHeight := sliceH |}])
      else ret slices
  end.

(** Part A of [processManhwa]: each turn of the loop advances [currentY], so
    [height] turns and the final test fit in the fuel. *)
Definition loadAndSlice (image : Canvas) : M (list Slice) :=
  sliceLoop (S (Z.to_nat (height image))) image 0 [].

(* ================================================================== *)
(** ** 3. Multi-key processor *)
(* ================================================================== *)

(** What the awaited [client.models.generateContent(...)] does: it rejects
    (network error, refused key, quota, ...), or resolves to a response whose
    [text] is missing ([None]) or is a method returning a string. *)
Inductive response : Type :=
| Rejects
| Resolves (text : option string).

(** The outside world: the answer to the request made for slice [i] on
    attempt [attempts]. *)
Definition Service : Type := nat -> nat -> response.

(** The statements of the [try] block. *)
Definition tryBlock (svc : Service) (i attempts : nat) : M bool :=
  match svc i attempts with
  | Rejects => throw ServiceError
  | Resolves text =>
      let txt := match text with Some s => s | None => "[]" end in
      let jsonStr := JsString.trim (JsString.removeAll ["```json"; "```"] 0 txt) in
      match JSON.parse jsonStr with
      | None => throw SyntaxError
      | Some blocks =>
          match blocks with
          | JArr items => pushAll items
          | _ => ret tt
          end ;;
          ret true
      end
  end.

(** The [catch] block: the warning, then [attempts++]. *)
Definition catchBlock (currentKey : option string) (i attempts : nat)
  : M nat :=
  match currentKey with
  | Some key =>
      emit (ConsoleWarn (JsString.sliceLast 4 key) (i + 1)) ;;
      ret (S attempts)
  | None => throw TypeError
  end.

(** [while (!success && attempts < apiKeys.length) { ... }]; the result is the
    final value of [(success, attempts)]. *)
Fixpoint failoverLoop (fuel : nat) (svc : Service) (apiKeys : list string)
    (i : nat) (success : bool) (attempts : nat) : M (bool * nat) :=
  match fuel with
  | O => outOfFuel
  | S fuel' =>
      if negb success && (attempts <? List.length apiKeys)%nat then
        let keyIndex := ((i + attempts) mod List.length apiKeys)%nat in
        let currentKey := nth_error apiKeys keyIndex in
        emit (NewClient i attempts keyIndex currentKey) ;;
        r <- tryCatch
               (s <- tryBlock svc i attempts ;; ret (s, attempts))
               (fun _ => a <- catchBlock currentKey i attempts ;;
                         ret (success, a)) ;;
        failoverLoop fuel' svc apiKeys i (fst r) (snd r)
      else ret (success, attempts)
  end.

(** The body of [for (let i = 0; i < slices.length; i++)]: every turn of the
    failover loop that does not end it increments [attempts], so
    [apiKeys.length] turns and the final test fit in the fuel. *)
Definition processSlice (svc : Service) (apiKeys : list string) (i : nat)
  : M unit :=
  r <- failoverLoop (S (List.length apiKeys)) svc apiKeys i false 0 ;;
  if negb (fst r) then emit (ConsoleError (i + 1)) else ret tt.

(** Part B of [processManhwa]. *)
Definition processSlices (svc : Service) (apiKeys : list string)
    (slices : list Slice) : M unit :=
  forEachM (seq 0 (List.length slices)) (processSlice svc apiKeys).

(** *** Part C: the output *)

(** An own property of an object; a later duplicate key wins. *)
Fixpoint lookup (k : string) (members : list (string * json)) : option json :=
  match members with
  | [] => None
  | (k', v) :: rest =>
      match lookup k rest with
      | Some v' => Some v'
      | None => if String.eqb k k' then Some v else None
      end
  end.

(** [b.k] for [k] one of [text], [category]: [None] is [undefined]. *)
Definition getProp (b : json) (k : string) : M (option json) :=
  match b with
  | JNull => throw TypeError
  | JObj members => ret (lookup k members)
  | _ => ret None
  end.

(** The decimal [m * 10^e] is read by [JSON.parse] as the nearest double,
    ties to even: it is [0] or [-0] exactly when its magnitude is at most
    [2^-1075], half of the least positive double. *)
Definition roundsToZero (m e : Z) : bool :=
  if m =? 0 then true
  else if 0 <=? e then false
  else Z.abs m * 2 ^ 1075 <=? 10 ^ (- e).

Definition truthy (v : option json) : bool :=
  match v with
  | None | Some JNull => false
  | Some (JBool b) => b
  | Some (JNum m e) => negb (roundsToZero m e)
  | Some (JStr s) => negb (String.eqb s EmptyString)
  | Some (JArr _) | Some (JObj _) => true
  end.

(** [v || d] *)
Definition orElse (v : option json) (d : json) : json :=
  match v with
  | Some x => if truthy v then x else d
  | None => d
  end.

Definition newline : string := JsString.byte_of 10.

(** [formatText(b.text || '', b.category || TextBlockCategory.SPEECH) + '\n']:
    [text.trim()] is a [TypeError] unless [text] is a string, and a category
    that is not a string is equal to no [case] label. *)
Definition formatBlock (b : json) : M string :=
  text <- getProp b "text" ;;
  category <- getProp b "category" ;;
  match orElse text (JStr EmptyString) with
  | JStr t =>
      match orElse category (JStr (categoryValue SPEECH)) with
      | JStr c => ret (formatText t c ++ newline)
      | _ => ret (JsString.trim t ++ newline)
      end
  | _ => throw TypeError
  end.

(** [allBlocks.forEach(b => { output += ... })] *)
Fixpoint formatOutput (blocks : list json) (output : string) : M string :=
  match blocks with
  | [] => ret output
  | b :: rest => line <- formatBlock b ;; formatOutput rest (output ++ line)
  end.

(** [processManhwa], from the loaded image on; a call starts in
    [initWorld], with [allBlocks] empty. *)
Definition processManhwa (svc : Service) (image : Canvas)
    (apiKeys : list string) : M string :=
  slices <- loadAndSlice image ;;
  processSlices svc apiKeys slices ;;
  blocks <- readAllBlocks ;;
  formatOutput blocks EmptyString.

(** The heights of the slices, and where a list of slices starting at [y]
    ends when each begins where the one before ended. *)
Definition heights (slices : list Slice) : list Z := map sliceHeight slices.

Fixpoint contiguousFrom (y : Z) (slices : list Slice) : Prop :=
  match slices with
  | [] => True
  | s :: rest => startY s = y /\ contiguousFrom (y + sliceHeight s) rest
  end.

Definition sumHeights (slices : list Slice) : Z :=
  fold_right Z.add 0 (heights slices).

(** Row [y] of the image lies in the band of slice [s]. *)
Definition coversRow (s : Slice) (y : Z) : bool :=
  (startY s <=? y) && (y <? startY s + sliceHeight s).

Definition slicesAt (slices : list Slice) (y : Z) : list Slice :=
  filter (fun s => coversRow s y) slices.

(** *** Reading a run's trace *)

(** The string handed to [JSON.parse] for a response with text [text]. *)
Definition jsonStrOf (text : option string) : string :=
  JsString.trim
    (JsString.removeAll ["```json"; "```"] 0
       (match text with Some s => s | None => "[]" end)).

(** What one attempt yields: the blocks it appends to [allBlocks], or [None]
    when the [try] block throws. *)
Definition decode (r : response) : option (list json) :=
  match r with
  | Rejects => None
  | Resolves text =>
      match JSON.parse (jsonStrOf text) with
      | None => None
      | Some (JArr items) => Some items
      | Some _ => Some []
      end
  end.

(** The first of the attempts [a], [a+1], ..., [a+n-1] for slice [i] that
    does not fail, with the blocks it yields. *)
Fixpoint firstSuccess (svc : Service) (i a n : nat) : option (nat * list json) :=
  match n with
  | O => None
  | S n' =>
      match decode (svc i a) with
      | Some items => Some (a, items)
      | None => firstSuccess svc i (S a) n'
      end
  end.

(** The dispatch outcome of slice [i] over a pool of [K] keys: the blocks of
    the first attempt that succeeds, no block when all [K] fail. *)
Definition sliceOutcome (svc : Service) (K i : nat) : list json :=
  match firstSuccess svc i 0 K with
  | Some (_, items) => items
  | None => []
  end.

Definition sliceFails (svc : Service) (K i : nat) : bool :=
  match firstSuccess svc i 0 K with
  | Some _ => false
  | None => true
  end.

(** The requests of a trace: slice, attempt, key index, key. *)
Definition requests (evs : list event) : list (nat * nat * nat * option string) :=
  flat_map (fun e => match e with
                     | NewClient i a k key => [(i, a, k, key)]
                     | _ => []
                     end) evs.

(** The request that the rotation prescribes for slice [i] on attempt [a]. *)
Definition planned (apiKeys : list string) (i a : nat)
  : nat * nat * nat * option string :=
  let k := ((i + a) mod List.length apiKeys)%nat in
  (i, a, k, nth_error apiKeys k).

(** The key indices requested for slice [i], in order. *)
Definition keysTried (i : nat) (evs : list event) : list nat :=
  flat_map (fun e => match e with
                     | NewClient j _ k _ => if (j =? i)%nat then [k] else []
                     | _ => []
                     end) evs.

(** The slices (numbered from 1) reported as failed with all keys. *)
Definition failedSlices (evs : list event) : list nat :=
  flat_map (fun e => match e with ConsoleError n => [n] | _ => [] end) evs.

(** The number of warnings about a failed key. *)
Definition warnings (evs : list event) : nat :=
  List.length (filter (fun e => match e with ConsoleWarn _ _ => true | _ => false end) evs).

(** The number of [getImageData] calls. *)
Definition scans (evs : list event) : nat :=
  List.length (filter (fun e => match e with GetImageData _ _ _ _ => true | _ => false end) evs).

(** What the failover loop for slice [i], entered with [attempts = a] in world
    [wd], has done when it leaves with [r = (success, attempts)] in [wd']:
    [n] requests, for the attempts [a], [a+1], ..., each with the planned key;
    they end at the first attempt that succeeds, whose blocks are appended,
    or when the pool is exhausted, with nothing appended. *)
Definition failoverPost (svc : Service) (apiKeys : list string) (i a : nat)
    (wd : world) (r : bool * nat) (wd' : world) : Prop :=
  let K := List.length apiKeys in
  exists evs n,
    events wd' = (events wd ++ evs)%list
    /\ requests evs = map (planned apiKeys i) (seq a n)
    /\ keysTried i evs = map (fun b => ((i + b) mod K)%nat) (seq a n)
    /\ failedSlices evs = []
    /\ scans evs = 0%nat
    /\ (a + n <= K)%nat
    /\ match firstSuccess svc i a (K - a) with
       | Some (a', items) =>
           r = (true, a') /\ n = (a' - a + 1)%nat /\ warnings evs = (a' - a)%nat
           /\ allBlocks wd' = (allBlocks wd ++ items)%list
       | None =>
           r = (false, K) /\ n = (K - a)%nat /\ warnings evs = (K - a)%nat
           /\ allBlocks wd' = allBlocks wd
       end.

(** The line that the output pass writes for block [b]; [None] when it
    throws. *)
Definition lineOf (b : json) : option string :=
  match formatBlock b initWorld with
  | Ret line _ => Some line
  | _ => None
  end.

Fixpoint linesOf (blocks : list json) : option (list string) :=
  match blocks with
  | [] => Some []
  | b :: rest =>
      match lineOf b, linesOf rest with
      | Some line, Some lines => Some (line :: lines)
      | _, _ => None
      end
  end.

(** No backtick occurs in [s]. *)
Fixpoint noBacktick (s : string) : bool :=
  match s with
  | EmptyString => true
  | String c r => negb (Ascii.eqb c "`") && noBacktick r
  end.

(** The characters of a string. *)
Definition chars (s : string) : list ascii := list_ascii_of_string s.

(** What a run may write about a key of the pool in a warning for slice
    [i]: the slice number and the last four characters of the key. *)
Definition warningOf (apiKeys : list string) (i : nat) (e : event) : Prop :=
  match e with
  | ConsoleWarn keyTail sliceNo =>
      sliceNo = (i + 1)%nat
      /\ exists key, In key apiKeys /\ keyTail = JsString.sliceLast 4 key
  | _ => True
  end.

(** The data that [getImageData(sx, sy, sw, _)] returns on [ctx]. *)
Definition windowData (ctx : Canvas) (sx sy sw : Z) : ImageData :=
  {| data := fun idx =>
       canvasPixel ctx (sx + (idx / 4) mod sw) (sy + (idx / 4) / sw)
                   (idx mod 4) |}.

(** The categories that the prompt of [processManhwa] asks the service to
    use, as the prompt spells them. *)
Definition promptCategories : list string :=
  ["speech"; "thought"; "box"; "narration"; "small_text"; "sfx"; "system";
   "scream"; "linked"].

(** [formatText] has a [case] for the category [c]. *)
Definition recognized (c : string) : bool :=
  existsb (String.eqb c) (map categoryValue allCategories).

(** The white space characters of ASCII. *)
Definition asciiSpaces : list ascii :=
  [" "; "009"; "010"; "011"; "012"; "013"]%char.

(** The lines of an output, one after the other. *)
Definition joinLines (lines : list string) : string :=
  fold_right append EmptyString lines.

(** The number of requests made for slice [i] over a pool of [K] keys, and
    how many of them fail. *)
Definition attemptsMade (svc : Service) (K i : nat) : nat :=
  match firstSuccess svc i 0 K with
  | Some (a, _) => S a
  | None => K
  end.

Definition failedAttempts (svc : Service) (K i : nat) : nat :=
  match firstSuccess svc i 0 K with
  | Some (a, _) => a
  | None => K
  end.

(** The [getImageData] call that precedes the cut of a slice that is not the
    last. *)
Definition scanEvent (image : Canvas) (s : Slice) : event :=
  GetImageData 0 (startY s + MIN_SLICE) (width image) (MAX_SLICE - MIN_SLICE).

(** The last row that the scan of a window of [scanH] rows visits. *)
Definition lastScanned (scanH : Z) : Z := 4 * ((scanH - 1) / 4).

(** The number of requests of a trace made with key index [k]. *)
Definition requestsWithKey (k : nat) (evs : list event) : nat :=
  List.length (filter (fun r => (snd (fst r) =? k)%nat) (requests evs)).

(* ================================================================== *)
(** ** The bot ([bot.ts]) *)
(* ================================================================== *)

Module Bot.

(** [s.split(sep)] for a separator of one character. *)
Fixpoint split (sep : ascii) (s : string) : list string :=
  match s with
  | EmptyString => [EmptyString]
  | String c r =>
      if Ascii.eqb c sep then EmptyString :: split sep r
      else match split sep r with
           | first :: rest => String c first :: rest
           | [] => [String c EmptyString]
           end
  end.

(** A value of [process.env] is a string or [undefined]; both [undefined] and
    the empty string are falsy. *)
Definition falsy (v : option string) : bool :=
  match v with
  | None => true
  | Some s => String.eqb s EmptyString
  end.

(** [GEMINI_KEYS], from [process.env.GEMINI_API_KEYS]. *)
Definition parseKeys (env : option string) : list string :=
  let KEYS_STRING := if falsy env then EmptyString
                     else match env with Some s => s | None => EmptyString end in
  filter (fun k => (0 <? String.length k)%nat)
         (map JsString.trim (split "," KEYS_STRING)).

(** The top of the module: [None] when it ends in [process.exit(1)], the
    pool of keys otherwise. *)
Definition startup (TOKEN CLIENT_ID keysEnv : option string)
  : option (list string) :=
  let GEMINI_KEYS := parseKeys keysEnv in
  if falsy TOKEN || falsy CLIENT_ID || (List.length GEMINI_KEYS =? 0)%nat
  then None else Some GEMINI_KEYS.

Record Attachment : Type := mkAttachment {
  attName : string;
  contentType : option string;     (* [null] is [None] *)
  attUrl : string
}.

Inductive Interaction : Type :=
| OtherInteraction
| ChatInputCommand (commandName : string) (image : option Attachment).

(** What the user is answered. *)
Inductive Reply : Type :=
| NoReply
| InvalidFile
| NoTextFound
| AnalysisComplete (fileName content : string)
| SystemError.

(** [loadImage(url)]: the decoded image, or [None] when it rejects. *)
Definition Loader : Type := string -> option Canvas.

(** The [interactionCreate] handler; [None] when a loop of [processManhwa]
    runs out of fuel. *)
Definition onInteraction (load : Loader) (svc : Service)
    (GEMINI_KEYS : list string) (interaction : Interaction) : option Reply :=
  match interaction with
  | OtherInteraction => Some NoReply
  | ChatInputCommand commandName image =>
      if String.eqb commandName "ocr" then
        match image with
        | None => Some InvalidFile
        | Some attachment =>
            let isImage := match contentType attachment with
                           | Some ct => String.prefix "image/" ct
                           | None => false
                           end in
            if negb isImage then Some InvalidFile
            else
              match load (attUrl attachment) with
              | None => Some SystemError
              | Some img =>
                  match processManhwa svc img GEMINI_KEYS initWorld with
                  | Ret result _ =>
                      if String.eqb (JsString.trim result) EmptyString
                      then Some NoTextFound
                      else Some (AnalysisComplete (attName attachment ++ ".txt")
                                                  result)
                  | Throw _ _ => Some SystemError
                  | OutOfFuel => None
                  end
              end
        end
      else Some NoReply
  end.

End Bot.

(* ================================================================== *)
(** ** Sample inputs *)
(* ================================================================== *)

Module Samples.

(** A [w] x [h] image that is white everywhere. *)
Definition white (w h : Z) : Canvas :=
  {| width := w; height := h; pixels := fun _ _ _ => Byte.xff |}.

(** A 10 x [h] image that is mid-grey except for one white row. *)
Definition greyWithWhiteRow (h row : Z) : Canvas :=
  {| width := 10; height := h;
     pixels := fun _ y _ => if y =? row then Byte.xff else Byte.x80 |}.

Definition keys2 : list string := ["key-AAAA"; "key-BBBB"].

(** JSON text written with apostrophes in place of its double quotes. *)
Fixpoint quoted (s : string) : string :=
  match s with
  | EmptyString => EmptyString
  | String c r =>
      String (if Ascii.eqb c "039" then "034"%char else c) (quoted r)
  end.

(** Every request is answered by text that is not JSON. *)
Definition garbled : Service := fun _ _ => Resolves (Some "oops").

(** Every request is answered by a JSON object, not an array. *)
Definition objectReply : Service :=
  fun _ _ => Resolves (Some (quoted "{'text': 'hi'}")).

(** Every request is rejected. *)
Definition down : Service := fun _ _ => Rejects.

(** Slice 0 is refused everywhere, every other slice is answered at once. *)
Definition firstSliceFails : Service :=
  fun i _ =>
    match i with
    | O => Rejects
    | _ => Resolves (Some (quoted "```json [{'text': ' hi ', 'category': 'thought'}] ```"))
    end.

(** Every request is answered at once by one record. *)
Definition up : Service :=
  fun _ _ => Resolves (Some (quoted "[{'text': 'hi', 'category': 'box'}]")).

(** A 10 x [h] image all of whose rows are alike: black with a white pixel
    in column 0. *)
Definition striped (h : Z) : Canvas :=
  {| width := 10; height := h;
     pixels := fun x _ _ => if x =? 0 then Byte.xff else Byte.x00 |}.

Definition pngAttachment : Bot.Attachment :=
  {| Bot.attName := "page";
     Bot.contentType := Some "image/png";
     Bot.attUrl := "https://cdn.example/page.png" |}.

End Samples.

(* ================================================================== *)
(** * Properties *)
(* ================================================================== *)

(** From here on [++] is the concatenation of lists unless marked. *)
Open Scope list_scope.

(** ** The loop counters *)

Lemma countUp_In (stop step y : Z) :
  0 < step -> In y (countUp stop step) -> 0 <= y < stop.
Proof.
  intros Hstep Hin. unfold countUp in Hin.
  apply in_map_iff in Hin. destruct Hin as [k [<- Hk]].
  apply in_seq in Hk. destruct Hk as [_ Hk]. simpl in Hk.
  assert (Hlt : Z.of_nat k < (stop + step - 1) / step) by lia.
  assert (Hle : Z.of_nat k + 1 <= (stop + step - 1) / step) by lia.
  assert (Hm : step * ((stop + step - 1) / step) <= stop + step - 1)
    by (apply Z.mul_div_le; lia).
  nia.
Qed.

Lemma countUp_length (stop step : Z) :
  0 < stop -> 0 < step -> Z.of_nat (List.length (countUp stop step)) <= stop.
Proof.
  intros Hstop Hstep. unfold countUp.
  rewrite length_map, length_seq.
  assert (0 <= (stop + step - 1) / step) by (apply Z.div_pos; lia).
  rewrite Z2Nat.id by assumption.
  assert (Hm : (stop + step - 1) / step <= stop + step - 1).
  { apply Z.div_le_upper_bound; nia. }
  assert (Hq : (stop + step - 1) / step < stop + 1).
  { apply Z.div_lt_upper_bound; nia. }
  lia.
Qed.

Lemma countUp_head (stop step : Z) :
  0 < stop -> 0 < step -> exists ys, countUp stop step = 0 :: ys.
Proof.
  intros Hstop Hstep. unfold countUp.
  assert (Hq : 1 <= (stop + step - 1) / step).
  { apply Z.div_le_lower_bound; lia. }
  destruct (Z.to_nat ((stop + step - 1) / step)) as [|n] eqn:E; [lia|].
  simpl. eexists. reflexivity.
Qed.

(** ** The pixel scan *)

Lemma channel_range (b : Byte.byte) : 0 <= channel b <= 255.
Proof.
  unfold channel. pose proof (Byte.to_N_bounded b). lia.
Qed.

(** A pixel is never further than 382 from both white and black. *)
Lemma pixel_energy_range (r g b : Byte.byte) :
  0 <= Z.min (Z.abs (255 - channel r) + Z.abs (255 - channel g)
              + Z.abs (255 - channel b))
             (channel r + channel g + channel b) <= 382.
Proof.
  pose proof (channel_range r). pose proof (channel_range g).
  pose proof (channel_range b). lia.
Qed.

Lemma fold_left_sum_range {A} (f : A -> Z) (bound : Z) (l : list A) (acc : Z) :
  (forall x, 0 <= f x <= bound) ->
  acc <= fold_left (fun a x => a + f x) l acc
      <= acc + bound * Z.of_nat (List.length l).
Proof.
  intros Hf. revert acc. induction l as [|x l IH]; intros acc; simpl fold_left.
  - simpl. lia.
  - specialize (IH (acc + f x)). specialize (Hf x).
    rewrite length_cons, Nat2Z.inj_succ. nia.
Qed.

Lemma rowEnergy_range (d : ImageData) (w y : Z) :
  0 < w -> 0 <= rowEnergy d w y <= 382 * w.
Proof.
  intros Hw. unfold rowEnergy.
  pose proof (fold_left_sum_range
    (fun x => Z.min (Z.abs (255 - channel (data d ((y * w + x) * 4)))
                     + Z.abs (255 - channel (data d ((y * w + x) * 4 + 1)))
                     + Z.abs (255 - channel (data d ((y * w + x) * 4 + 2))))
                    (channel (data d ((y * w + x) * 4))
                     + channel (data d ((y * w + x) * 4 + 1))
                     + channel (data d ((y * w + x) * 4 + 2))))
    382 (countUp w 10) 0 (fun x => pixel_energy_range _ _ _)) as H.
  cbv beta zeta in *.
  pose proof (countUp_length w 10 Hw ltac:(lia)). lia.
Qed.

(** The score of a row is a number between 0 and 3820 plus the penalty. *)
Lemma finalScore_range (d : ImageData) (w scanH y : Z) :
  0 < w ->
  (inject_Z (scanH - y) * (2 # 10) <= finalScore d w scanH y
   <= inject_Z 3820 + inject_Z (scanH - y) * (2 # 10))%Q.
Proof.
  intros Hw. unfold finalScore.
  pose proof (rowEnergy_range d w y Hw) as [Hlo Hhi].
  set (e := rowEnergy d w y) in *.
  assert (Hden : (0 < inject_Z w / inject_Z 10)%Q).
  { apply Qlt_shift_div_l; [reflexivity|]. rewrite Qmult_0_l.
    unfold Qlt, inject_Z. simpl. lia. }
  split.
  - rewrite <- (Qplus_0_l (inject_Z (scanH - y) * (2 # 10))) at 1.
    apply Qplus_le_compat; [|apply Qle_refl].
    apply Qle_shift_div_l; [exact Hden|]. rewrite Qmult_0_l.
    unfold Qle, inject_Z. simpl. lia.
  - apply Qplus_le_compat; [|apply Qle_refl].
    apply Qle_shift_div_r; [exact Hden|].
    unfold Qdiv. change (/ inject_Z 10)%Q with (1 # 10)%Q.
    unfold Qle, Qmult, inject_Z. cbn [Qnum Qden].
    rewrite Pos.mul_1_l. lia.
Qed.

Lemma Qltb_true (a b : Q) : Qltb a b = true <-> (a < b)%Q.
Proof.
  unfold Qltb. rewrite negb_true_iff. split; intros H.
  - apply Qnot_le_lt. intros Hle. apply Qle_bool_iff in Hle. congruence.
  - destruct (Qle_bool b a) eqn:E; [|reflexivity].
    apply Qle_bool_iff in E. exfalso. exact (Qlt_not_le _ _ H E).
Qed.

(** The window's data array has [4 * width * scanH] bytes, a length that is
    a safe integer; the score of its first row is then far below the
    sentinel. *)
Lemma first_score_below_MAX_VALUE (d : ImageData) (w scanH : Z) :
  0 < w -> 4 * w * scanH < 2 ^ 53 ->
  Qltb (finalScore d w scanH 0) MAX_VALUE = true.
Proof.
  intros Hw Hsafe. apply Qltb_true.
  pose proof (finalScore_range d w scanH 0 Hw) as [_ Hhi].
  eapply Qle_lt_trans; [exact Hhi|].
  assert (HscanH : scanH < 2 ^ 53) by nia.
  assert (Hbig : 2 ^ 60 < 2 ^ 1024 - 2 ^ 971) by (vm_compute; reflexivity).
  unfold MAX_VALUE.
  change (2 ^ 53) with 9007199254740992 in HscanH.
  change (2 ^ 60) with 1152921504606846976 in Hbig.
  set (big := 2 ^ 1024 - 2 ^ 971) in *. clearbody big.
  unfold Qlt, Qplus, Qmult, inject_Z. cbn [Qnum Qden].
  rewrite ?Pos.mul_1_l, ?Pos.mul_1_r. lia.
Qed.

(** The outer loop keeps [bestY], or moves it to a row of the window. *)
Lemma scan_fold_range (d : ImageData) (w startScan scanH : Z) (ys : list Z) :
  forall st : Z * Q,
    (forall y, In y ys -> 0 <= y < scanH) ->
    let r := fold_left (scanRow d w startScan scanH) ys st in
    fst r = fst st \/ startScan <= fst r < startScan + scanH.
Proof.
  induction ys as [|y ys IH]; intros st Hys; simpl.
  - left. reflexivity.
  - assert (Hy : 0 <= y < scanH) by (apply Hys; left; reflexivity).
    assert (Hys' : forall z, In z ys -> 0 <= z < scanH)
      by (intros z Hz; apply Hys; right; exact Hz).
    specialize (IH (scanRow d w startScan scanH st y) Hys').
    cbv zeta in IH. destruct IH as [IH | IH]; [|right; exact IH].
    rewrite IH. unfold scanRow. destruct st as [bestY minEnergy].
    destruct (Qltb _ _); simpl; [right; lia | left; reflexivity].
Qed.

(** When what remains fits in one slice there is no scan. *)
Lemma findBestCutPosition_rest (ctx : Canvas) (w currentY maxH minH : Z)
    (wd : world) :
  height ctx - currentY <= maxH ->
  findBestCutPosition ctx w currentY maxH minH wd
  = Ret (height ctx - currentY) wd.
Proof.
  intros H. unfold findBestCutPosition.
  apply Z.leb_le in H. rewrite H. reflexivity.
Qed.

Lemma findBestCutPosition_unfold (ctx : Canvas) (w currentY maxH minH : Z)
    (wd : world) :
  maxH < height ctx - currentY -> w <> 0 -> minH < maxH ->
  exists d,
    findBestCutPosition ctx w currentY maxH minH wd
    = Ret (fst (fold_left (scanRow d w minH (maxH - minH))
                          (countUp (maxH - minH) 4) (maxH, MAX_VALUE)))
          (logged (GetImageData 0 (currentY + minH) w (maxH - minH)) wd).
Proof.
  intros Hrem Hw Hm. unfold findBestCutPosition.
  assert (E : (height ctx - currentY <=? maxH) = false) by (apply Z.leb_gt; lia).
  rewrite E. unfold bind at 1. unfold getImageData, bind, emit.
  assert (Ew : (w =? 0) = false) by (apply Z.eqb_neq; exact Hw).
  assert (Eh : (maxH - minH =? 0) = false) by (apply Z.eqb_neq; lia).
  rewrite Ew, Eh. simpl. eexists. reflexivity.
Qed.

(** A scan cuts inside the window or at its end. *)
Lemma findBestCutPosition_scan (ctx : Canvas) (w currentY maxH minH : Z)
    (wd : world) :
  maxH < height ctx - currentY -> w <> 0 -> minH < maxH ->
  exists bestY,
    findBestCutPosition ctx w currentY maxH minH wd
    = Ret bestY (logged (GetImageData 0 (currentY + minH) w (maxH - minH)) wd)
    /\ minH <= bestY <= maxH.
Proof.
  intros Hrem Hw Hm.
  destruct (findBestCutPosition_unfold ctx w currentY maxH minH wd Hrem Hw Hm) as [d ->].
  eexists. split; [reflexivity|].
  pose proof (scan_fold_range d w minH (maxH - minH)
                (countUp (maxH - minH) 4) (maxH, MAX_VALUE)
                (fun y Hy => countUp_In (maxH - minH) 4 y ltac:(lia) Hy)) as H.
  cbv zeta in H. simpl fst in H at 2. lia.
Qed.

(** On an image of positive width the first row always beats the sentinel,
    so a scan cuts strictly inside the window. *)
Lemma findBestCutPosition_scan_strict (ctx : Canvas) (w currentY maxH minH : Z)
    (wd : world) :
  maxH < height ctx - currentY -> 0 < w -> minH < maxH ->
  4 * w * (maxH - minH) < 2 ^ 53 ->
  exists bestY,
    findBestCutPosition ctx w currentY maxH minH wd
    = Ret bestY (logged (GetImageData 0 (currentY + minH) w (maxH - minH)) wd)
    /\ minH <= bestY < maxH.
Proof.
  intros Hrem Hw Hm Hsafe.
  destruct (findBestCutPosition_unfold ctx w currentY maxH minH wd Hrem
              (not_eq_sym (Z.lt_neq _ _ Hw)) Hm) as [d ->].
  eexists. split; [reflexivity|].
  destruct (countUp_head (maxH - minH) 4 ltac:(lia) ltac:(lia)) as [ys Eys].
  assert (Hin : forall y, In y ys -> 0 <= y < maxH - minH).
  { intros y Hy. apply (countUp_In (maxH - minH) 4 y); [lia|].
    rewrite Eys. right. exact Hy. }
  assert (E0 : scanRow d w minH (maxH - minH) (maxH, MAX_VALUE) 0
               = (minH + 0, finalScore d w (maxH - minH) 0)).
  { unfold scanRow.
    rewrite (first_score_below_MAX_VALUE d w (maxH - minH) Hw Hsafe).
    reflexivity. }
  rewrite Eys. cbn [fold_left]. rewrite E0.
  pose proof (scan_fold_range d w minH (maxH - minH) ys
                (minH + 0, finalScore d w (maxH - minH) 0) Hin) as H.
  cbv zeta in H. simpl fst in H at 2. lia.
Qed.

(** ** The slicing loop *)

Lemma sumHeights_cons (s : Slice) (slices : list Slice) :
  sumHeights (s :: slices) = sliceHeight s + sumHeights slices.
Proof. reflexivity. Qed.

Lemma sumHeights_nonneg (slices : list Slice) :
  Forall (fun s => 0 < sliceHeight s) slices -> 0 <= sumHeights slices.
Proof.
  induction 1 as [|s rest Hs _ IH].
  - unfold sumHeights. simpl. lia.
  - rewrite sumHeights_cons. lia.
Qed.

(** Bands that follow one another and have positive heights share no row and
    leave no gap. *)
Lemma contiguous_cover (slices : list Slice) :
  forall y0 y,
    contiguousFrom y0 slices ->
    Forall (fun s => 0 < sliceHeight s) slices ->
    List.length (slicesAt slices y)
    = if (y0 <=? y) && (y <? y0 + sumHeights slices) then 1%nat else 0%nat.
Proof.
  induction slices as [|s rest IH]; intros y0 y Hc Hpos.
  - unfold sumHeights. simpl.
    destruct (y0 <=? y) eqn:E1; destruct (y <? y0 + 0) eqn:E2; try reflexivity.
    apply Z.leb_le in E1. apply Z.ltb_lt in E2. lia.
  - destruct Hc as [Hs Hc]. inversion Hpos as [|? ? Hh Hpos']; subst.
    pose proof (sumHeights_nonneg rest Hpos') as Hsum.
    specialize (IH (startY s + sliceHeight s) y Hc Hpos').
    unfold slicesAt in *. simpl filter.
    change (sumHeights (s :: rest)) with (sliceHeight s + sumHeights rest).
    unfold coversRow at 1.
    destruct (startY s <=? y) eqn:E1; destruct (y <? startY s + sliceHeight s) eqn:E2;
      simpl; rewrite ?length_cons, IH;
      destruct (startY s + sliceHeight s <=? y) eqn:E3;
      destruct (y <? startY s + sliceHeight s + sumHeights rest) eqn:E4;
      destruct (y <? startY s + (sliceHeight s + sumHeights rest)) eqn:E5;
      simpl; try reflexivity;
      repeat match goal with
             | H : (_ <=? _) = true |- _ => apply Z.leb_le in H
             | H : (_ <=? _) = false |- _ => apply Z.leb_gt in H
             | H : (_ <? _) = true |- _ => apply Z.ltb_lt in H
             | H : (_ <? _) = false |- _ => apply Z.ltb_ge in H
             end; lia.
Qed.

Section SliceLoop.

Variable image : Canvas.

(** What is known of a cut made by a scan, besides its bounds. *)
Variable cutOK : Z -> Prop.

Hypothesis scan_ok :
  forall currentY wd,
    MAX_SLICE < height image - currentY ->
    exists bestY,
      findBestCutPosition image (width image) currentY MAX_SLICE MIN_SLICE wd
      = Ret bestY (logged (GetImageData 0 (currentY + MIN_SLICE) (width image)
                                        (MAX_SLICE - MIN_SLICE)) wd)
      /\ MIN_SLICE <= bestY <= MAX_SLICE /\ cutOK bestY.

Lemma sliceLoop_spec (fuel : nat) :
  forall currentY acc wd,
    0 <= currentY <= height image ->
    (Z.to_nat (height image - currentY) < fuel)%nat ->
    exists new wd',
      sliceLoop fuel image currentY acc wd = Ret (acc ++ new) wd'
      /\ allBlocks wd' = allBlocks wd
      /\ contiguousFrom currentY new
      /\ sumHeights new = height image - currentY
      /\ Forall (fun s => 0 < sliceHeight s <= MAX_SLICE) new
      /\ Forall (fun s => MIN_SLICE <= sliceHeight s /\ cutOK (sliceHeight s))
                (removelast new).
Proof.
  induction fuel as [|fuel IH]; intros currentY acc wd Hy Hfuel; [lia|].
  simpl sliceLoop.
  destruct (currentY <? height image) eqn:Elt.
  - apply Z.ltb_lt in Elt. unfold bind at 1.
    destruct (Z_le_gt_dec (height image - currentY) MAX_SLICE) as [Hrest | Hscan].
    + (* the rest of the image is the final slice *)
      rewrite (findBestCutPosition_rest image (width image) currentY
                 MAX_SLICE MIN_SLICE wd Hrest).
      set (s := {| startY := currentY; sliceHeight := height image - currentY |}).
      destruct (IH (currentY + (height image - currentY)) (acc ++ [s]) wd
                  ltac:(lia) ltac:(lia))
        as (new & wd' & Erun & Hblocks & Hc & Hsum & Hpos & _).
      assert (new = []) as ->.
      { destruct new as [|t new]; [reflexivity|]. exfalso.
        inversion Hpos as [|? ? Ht Hpos']; subst.
        assert (Hnn : 0 <= sumHeights new).
        { apply sumHeights_nonneg.
          eapply Forall_impl; [|exact Hpos']. simpl. intros; lia. }
        rewrite sumHeights_cons in Hsum. lia. }
      exists [s], wd'. rewrite Erun, app_nil_r.
      split; [reflexivity|]. split; [exact Hblocks|].
      split; [simpl; auto|].
      split; [unfold sumHeights; simpl; lia|].
      split; [constructor; [simpl; lia | constructor] | simpl; constructor].
    + (* a scan chooses the cut *)
      destruct (scan_ok currentY wd ltac:(lia)) as (bestY & -> & Hb & Hok).
      set (s := {| startY := currentY; sliceHeight := bestY |}).
      unfold MIN_SLICE, MAX_SLICE in Hb, Hscan.
      destruct (IH (currentY + bestY) (acc ++ [s])
                  (logged (GetImageData 0 (currentY + MIN_SLICE) (width image)
                                        (MAX_SLICE - MIN_SLICE)) wd)
                  ltac:(lia) ltac:(lia))
        as (new & wd' & Erun & Hblocks & Hc & Hsum & Hpos & Hmin).
      exists (s :: new), wd'. rewrite Erun, <- app_assoc.
      split; [reflexivity|]. split; [exact Hblocks|].
      split; [simpl; auto|].
      split; [rewrite sumHeights_cons; simpl; lia|].
      split; [constructor; [simpl; unfold MAX_SLICE; lia | exact Hpos]|].
      destruct new as [|t new]; [simpl; constructor|].
      change (removelast (s :: t :: new)) with (s :: removelast (t :: new)).
      constructor; [simpl; unfold MIN_SLICE; split; [lia | exact Hok] | exact Hmin].
  - apply Z.ltb_ge in Elt. exists [], wd. rewrite app_nil_r.
    split; [reflexivity|]. split; [reflexivity|]. split; [exact I|].
    split; [unfold sumHeights; simpl; lia|].
    split; constructor.
Qed.

End SliceLoop.

Lemma scan_ok_weak (image : Canvas) :
  width image <> 0 ->
  forall currentY wd,
    MAX_SLICE < height image - currentY ->
    exists bestY,
      findBestCutPosition image (width image) currentY MAX_SLICE MIN_SLICE wd
      = Ret bestY (logged (GetImageData 0 (currentY + MIN_SLICE) (width image)
                                        (MAX_SLICE - MIN_SLICE)) wd)
      /\ MIN_SLICE <= bestY <= MAX_SLICE /\ True.
Proof.
  intros Hw currentY wd Hrem.
  destruct (findBestCutPosition_scan image (width image) currentY
              MAX_SLICE MIN_SLICE wd Hrem Hw ltac:(reflexivity))
    as (bestY & E & Hb).
  exists bestY. auto.
Qed.

Lemma scan_ok_strict (image : Canvas) :
  0 < width image -> 4 * width image * (MAX_SLICE - MIN_SLICE) < 2 ^ 53 ->
  forall currentY wd,
    MAX_SLICE < height image - currentY ->
    exists bestY,
      findBestCutPosition image (width image) currentY MAX_SLICE MIN_SLICE wd
      = Ret bestY (logged (GetImageData 0 (currentY + MIN_SLICE) (width image)
                                        (MAX_SLICE - MIN_SLICE)) wd)
      /\ MIN_SLICE <= bestY <= MAX_SLICE /\ bestY < MAX_SLICE.
Proof.
  intros Hw Hsafe currentY wd Hrem.
  destruct (findBestCutPosition_scan_strict image (width image) currentY
              MAX_SLICE MIN_SLICE wd Hrem Hw ltac:(reflexivity) Hsafe)
    as (bestY & E & Hb).
  exists bestY. repeat split; try assumption; lia.
Qed.

(** C1. For an image of width W > 0 and height H, the slicing loop of
    [processManhwa] (MAX_SLICE = 3000, MIN_SLICE = 1500) ends with slices that
    follow one another from row 0, whose heights sum to H, such that each row
    of [0, H) lies in exactly one slice and no other row in any; every height
    is at most 3000, and every height but possibly the last at least 1500. *)
Theorem slices_partition_image (image : Canvas) (wd : world) :
  0 < width image -> 0 <= height image ->
  exists slices wd',
    loadAndSlice image wd = Ret slices wd'
    /\ contiguousFrom 0 slices
    /\ sumHeights slices = height image
    /\ (forall y, List.length (slicesAt slices y)
                  = if (0 <=? y) && (y <? height image) then 1%nat else 0%nat)
    /\ Forall (fun s => 0 < sliceHeight s <= MAX_SLICE) slices
    /\ Forall (fun s => MIN_SLICE <= sliceHeight s) (removelast slices).
Proof.
  intros Hw Hh. unfold loadAndSlice.
  destruct (sliceLoop_spec image (fun _ => True)
              (scan_ok_weak image (not_eq_sym (Z.lt_neq _ _ Hw)))
              (S (Z.to_nat (height image))) 0 [] wd ltac:(lia) ltac:(lia))
    as (slices & wd' & Erun & _ & Hc & Hsum & Hpos & Hmin).
  exists slices, wd'. simpl in Erun.
  split; [exact Erun|]. split; [exact Hc|]. split; [lia|].
  split; [|split; [exact Hpos|]].
  - intros y. rewrite (contiguous_cover slices 0 y Hc).
    + rewrite Hsum. replace (0 + (height image - 0)) with (height image) by lia.
      reflexivity.
    + eapply Forall_impl; [|exact Hpos]. simpl. intros; lia.
  - eapply Forall_impl; [|exact Hmin]. simpl. intros s [H _]. exact H.
Qed.

Lemma slices_partition_image_witness :
  0 < width (Samples.white 10 7000) /\ 0 <= height (Samples.white 10 7000) /\
  exists slices wd',
    loadAndSlice (Samples.white 10 7000) initWorld = Ret slices wd'
    /\ sumHeights slices = 7000
    /\ Forall (fun s => 0 < sliceHeight s <= MAX_SLICE) slices.
Proof.
  split; [simpl; lia|]. split; [simpl; lia|].
  destruct (slices_partition_image (Samples.white 10 7000) initWorld)
    as (slices & wd' & E & _ & Hsum & _ & Hmax & _); [simpl; lia | simpl; lia |].
  exists slices, wd'. split; [exact E|]. split; [exact Hsum | exact Hmax].
Defined.

Example slices_white_7000 :
  loadAndSlice (Samples.white 10 7000) initWorld
  = Ret [ {| startY := 0; sliceHeight := 2996 |};
          {| startY := 2996; sliceHeight := 2996 |};
          {| startY := 5992; sliceHeight := 1008 |} ]
        {| allBlocks := [];
           events := [GetImageData 0 1500 10 1500; GetImageData 0 4496 10 1500] |}.
Proof. vm_compute. reflexivity. Qed.

Lemma sliceLoop_step (fuel : nat) (image : Canvas) (currentY : Z)
    (acc : list Slice) (wd : world) :
  sliceLoop (S fuel) image currentY acc wd
  = if currentY <? height image then
      match findBestCutPosition image (width image) currentY
                                MAX_SLICE MIN_SLICE wd with
      | Ret sliceH wd' =>
          sliceLoop fuel image (currentY + sliceH)
                    (acc ++ [{| startY := currentY; sliceHeight := sliceH |}]) wd'
      | Throw e wd' => Throw e wd'
      | OutOfFuel => OutOfFuel
      end
    else Ret acc wd.
Proof.
  cbn [sliceLoop]. destruct (currentY <? height image); reflexivity.
Qed.

(** More fuel does not change what the slicing loop returns. *)
Lemma sliceLoop_more_fuel (image : Canvas) (fuel : nat) :
  forall currentY acc wd slices wd',
    sliceLoop fuel image currentY acc wd = Ret slices wd' ->
    forall extra,
      sliceLoop (fuel + extra) image currentY acc wd = Ret slices wd'.
Proof.
  induction fuel as [|fuel IH]; intros currentY acc wd slices wd' Hrun extra;
    [discriminate Hrun|].
  change (S fuel + extra)%nat with (S (fuel + extra)).
  rewrite sliceLoop_step in *.
  destruct (currentY <? height image); [|exact Hrun].
  destruct (findBestCutPosition image (width image) currentY
                                MAX_SLICE MIN_SLICE wd) as [sliceH wd1| |];
    try discriminate Hrun.
  apply IH. exact Hrun.
Qed.

(** C8. An image whose height H is positive and at most the maximum slice
    height is one slice {0, H}, and nothing is read from the canvas: the world
    is left as it was, so no [getImageData] has run.  The first part says so
    of [findBestCutPosition] for any bounds, the second of the slicing loop. *)
Theorem short_image_is_one_slice :
  (forall (ctx : Canvas) (w currentY maxH minH : Z) (wd : world),
      height ctx - currentY <= maxH ->
      findBestCutPosition ctx w currentY maxH minH wd
      = Ret (height ctx - currentY) wd)
  /\
  (forall (image : Canvas) (wd : world),
      0 < height image <= MAX_SLICE ->
      loadAndSlice image wd
      = Ret [{| startY := 0; sliceHeight := height image |}] wd).
Proof.
  split; [exact findBestCutPosition_rest|].
  intros image wd Hh. unfold loadAndSlice.
  destruct (Z.to_nat (height image)) as [|n] eqn:E; [lia|].
  rewrite sliceLoop_step.
  assert (E0 : (0 <? height image) = true) by (apply Z.ltb_lt; lia).
  rewrite E0, findBestCutPosition_rest by lia.
  rewrite sliceLoop_step.
  assert (E1 : (0 + (height image - 0) <? height image) = false)
    by (apply Z.ltb_ge; lia).
  rewrite E1. rewrite Z.sub_0_r. reflexivity.
Qed.

Lemma short_image_is_one_slice_witness :
  0 < height (Samples.white 10 3000) <= MAX_SLICE /\
  loadAndSlice (Samples.white 10 3000) initWorld
  = Ret [{| startY := 0; sliceHeight := 3000 |}] initWorld.
Proof.
  split; [vm_compute; split; [reflexivity | discriminate]|].
  apply (proj2 short_image_is_one_slice (Samples.white 10 3000) initWorld).
  vm_compute. split; [reflexivity | discriminate].
Defined.

(** C10. When more than [maxH] rows remain, [minH < maxH], the image has a
    positive width and the window's data array has a length that is a safe
    integer: the scan visits row 0 of the window first, the score of that row
    is below [Number.MAX_VALUE] and replaces the sentinel, and the cut that
    [findBestCutPosition] returns lies in [minH, maxH), never at [maxH].  The
    second part says so of every slice but the last of [processManhwa]. *)
Theorem scan_never_returns_sentinel :
  (forall (ctx : Canvas) (w currentY maxH minH : Z) (wd : world),
      maxH < height ctx - currentY -> 0 < w -> minH < maxH ->
      4 * w * (maxH - minH) < 2 ^ 53 ->
      (exists ys, countUp (maxH - minH) 4 = 0 :: ys)
      /\ (forall d, scanRow d w minH (maxH - minH) (maxH, MAX_VALUE) 0
                    = (minH + 0, finalScore d w (maxH - minH) 0))
      /\ exists bestY,
          findBestCutPosition ctx w currentY maxH minH wd
          = Ret bestY
                (logged (GetImageData 0 (currentY + minH) w (maxH - minH)) wd)
          /\ minH <= bestY < maxH)
  /\
  (forall (image : Canvas) (wd : world),
      0 < width image -> 0 <= height image ->
      4 * width image * (MAX_SLICE - MIN_SLICE) < 2 ^ 53 ->
      exists slices wd',
        loadAndSlice image wd = Ret slices wd'
        /\ Forall (fun s => MIN_SLICE <= sliceHeight s < MAX_SLICE)
                  (removelast slices)).
Proof.
  split.
  - intros ctx w currentY maxH minH wd Hrem Hw Hm Hsafe.
    split; [apply countUp_head; lia|]. split.
    + intros d. unfold scanRow.
      rewrite (first_score_below_MAX_VALUE d w (maxH - minH) Hw Hsafe).
      reflexivity.
    + apply findBestCutPosition_scan_strict; assumption.
  - intros image wd Hw Hh Hsafe. unfold loadAndSlice.
    destruct (sliceLoop_spec image (fun b => b < MAX_SLICE)
                (scan_ok_strict image Hw Hsafe)
                (S (Z.to_nat (height image))) 0 [] wd ltac:(lia) ltac:(lia))
      as (slices & wd' & Erun & _ & _ & _ & _ & Hmin).
    exists slices, wd'. split; [exact Erun|].
    eapply Forall_impl; [|exact Hmin]. simpl. intros; lia.
Qed.

Lemma scan_never_returns_sentinel_witness :
  (MAX_SLICE < height (Samples.white 10 7000) - 0 /\ 0 < 10 /\
   MIN_SLICE < MAX_SLICE /\ 4 * 10 * (MAX_SLICE - MIN_SLICE) < 2 ^ 53) /\
  exists bestY,
    findBestCutPosition (Samples.white 10 7000) 10 0 MAX_SLICE MIN_SLICE initWorld
    = Ret bestY (logged (GetImageData 0 (0 + MIN_SLICE) 10 (MAX_SLICE - MIN_SLICE))
                        initWorld)
    /\ MIN_SLICE <= bestY < MAX_SLICE.
Proof.
  split; [repeat split; reflexivity|].
  apply (proj1 scan_never_returns_sentinel (Samples.white 10 7000)
               10 0 MAX_SLICE MIN_SLICE initWorld); reflexivity.
Defined.

(** C7, as stated, fails: on a 10 x 5000 image that is grey except for a white
    row 1500 the first cut is at 1500, 3500 rows remain, and the loop makes
    three slices, not two. *)
Lemma three_slices_counterexample :
  height (Samples.greyWithWhiteRow 5000 1500) = 5000
  /\ loadAndSlice (Samples.greyWithWhiteRow 5000 1500) initWorld
     = Ret [ {| startY := 0; sliceHeight := 1500 |};
             {| startY := 1500; sliceHeight := 2996 |};
             {| startY := 4496; sliceHeight := 504 |} ]
           {| allBlocks := [];
              events := [GetImageData 0 1500 10 1500; GetImageData 0 3000 10 1500] |}
  /\ ~ (exists cutY wd',
          1500 <= cutY <= 3000
          /\ loadAndSlice (Samples.greyWithWhiteRow 5000 1500) initWorld
             = Ret [ {| startY := 0; sliceHeight := cutY |};
                     {| startY := cutY; sliceHeight := 5000 - cutY |} ] wd').
Proof.
  assert (E : loadAndSlice (Samples.greyWithWhiteRow 5000 1500) initWorld
              = Ret [ {| startY := 0; sliceHeight := 1500 |};
                      {| startY := 1500; sliceHeight := 2996 |};
                      {| startY := 4496; sliceHeight := 504 |} ]
                    {| allBlocks := [];
                       events := [GetImageData 0 1500 10 1500;
                                  GetImageData 0 3000 10 1500] |})
    by (vm_compute; reflexivity).
  split; [reflexivity|]. split; [exact E|].
  intros (cutY & wd' & _ & E'). rewrite E in E'. discriminate E'.
Qed.

(** C7, amended.  On an image of positive width and height 5000 the first
    slice is {0, cutY} with 1500 <= cutY <= 3000.  If cutY >= 2000 there are
    exactly two slices, {0, cutY} and {cutY, 5000 - cutY}.  If cutY < 2000,
    more than 3000 rows remain and there are exactly three slices:
    {0, cutY}, {cutY, cut2} with 1500 <= cut2 <= 3000, and the remainder. *)
Theorem slices_at_5000 (image : Canvas) (wd : world) :
  0 < width image -> height image = 5000 ->
  exists cutY wd',
    1500 <= cutY <= 3000
    /\ ((2000 <= cutY
         /\ loadAndSlice image wd
            = Ret [ {| startY := 0; sliceHeight := cutY |};
                    {| startY := cutY; sliceHeight := 5000 - cutY |} ] wd')
        \/ (cutY < 2000
            /\ exists cut2,
                1500 <= cut2 <= 3000
                /\ loadAndSlice image wd
                   = Ret [ {| startY := 0; sliceHeight := cutY |};
                           {| startY := cutY; sliceHeight := cut2 |};
                           {| startY := cutY + cut2;
                              sliceHeight := 5000 - cutY - cut2 |} ] wd')).
Proof.
  intros Hw Hh. unfold loadAndSlice.
  assert (Hw' : width image <> 0) by lia.
  destruct (Z.to_nat (height image)) as [|[|[|n]]] eqn:En; try lia.
  rewrite sliceLoop_step.
  assert (E0 : (0 <? height image) = true) by (apply Z.ltb_lt; lia).
  rewrite E0.
  destruct (findBestCutPosition_scan image (width image) 0
              MAX_SLICE MIN_SLICE wd) as (cutY & -> & Hc);
    [unfold MAX_SLICE; lia | exact Hw' | reflexivity |].
  unfold MIN_SLICE, MAX_SLICE in Hc.
  set (wd1 := logged _ wd).
  rewrite sliceLoop_step.
  assert (E1 : (0 + cutY <? height image) = true) by (apply Z.ltb_lt; lia).
  rewrite E1. simpl app. rewrite Z.add_0_l.
  destruct (Z_lt_ge_dec cutY 2000) as [Hlt | Hge].
  - (* more than 3000 rows remain: a second scan *)
    destruct (findBestCutPosition_scan image (width image) cutY
                MAX_SLICE MIN_SLICE wd1) as (cut2 & -> & Hc2);
      [unfold MAX_SLICE; lia | exact Hw' | reflexivity |].
    unfold MIN_SLICE, MAX_SLICE in Hc2.
    set (wd2 := logged _ wd1).
    rewrite sliceLoop_step.
    assert (E2 : (cutY + cut2 <? height image) = true) by (apply Z.ltb_lt; lia).
    rewrite E2, findBestCutPosition_rest by (unfold MAX_SLICE; lia).
    rewrite sliceLoop_step.
    assert (E3 : (cutY + cut2 + (height image - (cutY + cut2)) <? height image)
                 = false) by (apply Z.ltb_ge; lia).
    rewrite E3. simpl app.
    exists cutY, wd2. split; [lia|]. right. split; [exact Hlt|].
    exists cut2. split; [lia|]. rewrite Hh.
    replace (5000 - (cutY + cut2)) with (5000 - cutY - cut2) by lia.
    reflexivity.
  - rewrite findBestCutPosition_rest by (unfold MAX_SLICE; lia).
    rewrite sliceLoop_step.
    assert (E2 : (cutY + (height image - cutY) <? height image) = false)
      by (apply Z.ltb_ge; lia).
    rewrite E2. simpl app.
    exists cutY, wd1. split; [lia|]. left. split; [lia|].
    rewrite Hh. reflexivity.
Qed.

Lemma slices_at_5000_witness :
  0 < width (Samples.white 10 5000) /\ height (Samples.white 10 5000) = 5000 /\
  exists cutY wd',
    1500 <= cutY <= 3000
    /\ ((2000 <= cutY
         /\ loadAndSlice (Samples.white 10 5000) initWorld
            = Ret [ {| startY := 0; sliceHeight := cutY |};
                    {| startY := cutY; sliceHeight := 5000 - cutY |} ] wd')
        \/ (cutY < 2000
            /\ exists cut2,
                1500 <= cut2 <= 3000
                /\ loadAndSlice (Samples.white 10 5000) initWorld
                   = Ret [ {| startY := 0; sliceHeight := cutY |};
                           {| startY := cutY; sliceHeight := cut2 |};
                           {| startY := cutY + cut2;
                              sliceHeight := 5000 - cutY - cut2 |} ] wd')).
Proof.
  split; [reflexivity|]. split; [reflexivity|].
  apply (slices_at_5000 (Samples.white 10 5000) initWorld); reflexivity.
Defined.

(** ** Formatting *)

Lemma formatText_member (text : string) (c : TextBlockCategory) :
  formatText text (categoryValue c)
  = (categoryPrefix c ++ JsString.trim text)%string.
Proof. destruct c; reflexivity. Qed.

Lemma formatText_other (text category : string) :
  (forall c, category <> categoryValue c) ->
  formatText text category = JsString.trim text.
Proof.
  intros H. unfold formatText.
  repeat match goal with
         | |- context [String.eqb category (categoryValue ?c)] =>
             let E := fresh "E" in
             destruct (String.eqb_spec category (categoryValue c)) as [E | E];
             [exfalso; exact (H c E) | clear E]
         end.
  reflexivity.
Qed.

(** [formatText] on the values of the members of [TextBlockCategory] and on
    every other category. *)
Theorem formatText_by_category (text category : string) :
  (forall c, category = categoryValue c ->
             formatText text category
             = (categoryPrefix c ++ JsString.trim text)%string)
  /\ ((forall c, category <> categoryValue c) ->
      formatText text category = JsString.trim text).
Proof.
  split.
  - intros c ->. apply formatText_member.
  - apply formatText_other.
Qed.

Lemma formatText_by_category_witness :
  (forall c, "sfx" <> categoryValue c) /\
  formatText " Boom " "sfx" = JsString.trim " Boom ".
Proof.
  assert (H : forall c, "sfx" <> categoryValue c)
    by (intros c; destruct c; discriminate).
  split; [exact H|].
  exact (proj2 (formatText_by_category " Boom " "sfx") H).
Defined.

(** C6. [formatText] is total and gives the value of each member of
    [TextBlockCategory] its prefix, but the value of the member [SFX] is the
    upper-case ['SFX'] while the prompt of [processManhwa] asks the service
    for the category [sfx]: of the nine categories of the prompt, [sfx] alone
    is not recognized, and a record of that category is written as its bare
    trimmed text, without the prefix [SFX: ]. *)
Theorem sfx_category_gets_no_prefix :
  (forall text, formatText text "sfx" = JsString.trim text)
  /\ (forall text, formatText text (categoryValue SFX)
                   = ("SFX: " ++ JsString.trim text)%string)
  /\ filter (fun c => negb (recognized c)) promptCategories = ["sfx"]
  /\ formatText "Boom" "sfx" = "Boom"
  /\ formatBlock (JObj [("text", JStr "Boom"); ("category", JStr "sfx")])
                 initWorld
     = Ret ("Boom" ++ String "010" EmptyString)%string initWorld.
Proof.
  split; [intros text; apply formatText_other; intros c; destruct c; discriminate|].
  split; [intros text; apply (formatText_member text SFX)|].
  split; [reflexivity|]. split; reflexivity.
Qed.

Example formatText_examples :
  formatText " Hello " "thought" = "(): Hello"
  /\ formatText "Boom" "SFX" = "SFX: Boom"
  /\ formatText "Boom" "sfx" = "Boom"
  /\ JsString.trim ("  hi there " ++ JsString.utf8 160)%string = "hi there"
  /\ JsString.removeAll ["```json"; "```"] 0 "```json[1]```" = "[1]".
Proof. repeat split; reflexivity. Qed.





(** ** The failover loop *)

Section Failover.

Local Open Scope nat_scope.

Variable svc : Service.
Variable apiKeys : list string.

Local Abbreviation K := (List.length apiKeys).

Lemma tryBlock_ok (i a : nat) (items : list json) (wd : world) :
  decode (svc i a) = Some items ->
  tryBlock svc i a wd = Ret true (pushed items wd)
  \/ (items = [] /\ tryBlock svc i a wd = Ret true wd).
Proof.
  unfold decode, tryBlock. destruct (svc i a) as [|text]; [discriminate|].
  change (JsString.trim _) with (jsonStrOf text).
  destruct (JSON.parse (jsonStrOf text)) as [v|]; [|discriminate].
  destruct v; intros E; injection E as <-;
    (left; reflexivity) || (right; split; reflexivity).
Qed.

Lemma tryBlock_fail (i a : nat) (wd : world) :
  decode (svc i a) = None ->
  exists e, tryBlock svc i a wd = Throw e wd.
Proof.
  unfold decode, tryBlock. destruct (svc i a) as [|text].
  - intros _. exists ServiceError. reflexivity.
  - change (JsString.trim _) with (jsonStrOf text).
    destruct (JSON.parse (jsonStrOf text)) as [v|].
    + destruct v; discriminate.
    + intros _. exists SyntaxError. reflexivity.
Qed.

Lemma key_in_pool (i a : nat) :
  a < K -> exists key, nth_error apiKeys ((i + a) mod K) = Some key.
Proof.
  intros Ha.
  destruct (nth_error apiKeys ((i + a) mod K)) as [key|] eqn:E; [eauto|].
  apply nth_error_None in E. fold K in E.
  pose proof (Nat.mod_upper_bound (i + a) K ltac:(lia)). lia.
Qed.

(** A failed attempt: the request, the warning, then the next attempt. *)
Lemma failoverLoop_fail_step (fuel i a : nat) (wd : world) :
  a < K -> decode (svc i a) = None ->
  exists key,
    nth_error apiKeys ((i + a) mod K) = Some key
    /\ failoverLoop (S fuel) svc apiKeys i false a wd
       = failoverLoop fuel svc apiKeys i false (S a)
           (logged (ConsoleWarn (JsString.sliceLast 4 key) (i + 1))
                   (logged (NewClient i a ((i + a) mod K) (Some key)) wd)).
Proof.
  intros Ha Hd. destruct (key_in_pool i a Ha) as [key Hkey].
  exists key. split; [exact Hkey|].
  cbn [failoverLoop]. fold K.
  assert (E : (a <? K) = true) by (apply Nat.ltb_lt; exact Ha).
  rewrite E. cbn [negb andb]. rewrite Hkey.
  unfold bind at 1. unfold emit at 1. unfold bind at 1. unfold tryCatch.
  unfold bind at 1.
  destruct (tryBlock_fail i a
              (logged (NewClient i a ((i + a) mod K) (Some key)) wd) Hd)
    as [e ->].
  reflexivity.
Qed.

(** A successful attempt ends the loop. *)
Lemma failoverLoop_ok_step (fuel i a : nat) (items : list json) (wd : world) :
  a < K -> decode (svc i a) = Some items ->
  exists wd',
    failoverLoop (S (S fuel)) svc apiKeys i false a wd = Ret (true, a) wd'
    /\ allBlocks wd' = (allBlocks wd ++ items)%list
    /\ events wd'
       = (events wd
          ++ [NewClient i a ((i + a) mod K) (nth_error apiKeys ((i + a) mod K))])%list.
Proof.
  intros Ha Hd. cbn [failoverLoop]. fold K.
  assert (E : (a <? K) = true) by (apply Nat.ltb_lt; exact Ha).
  rewrite E. cbn [negb andb].
  unfold bind at 1. unfold emit at 1. unfold bind at 1. unfold tryCatch.
  unfold bind at 1.
  destruct (tryBlock_ok i a items
              (logged (NewClient i a ((i + a) mod K)
                                 (nth_error apiKeys ((i + a) mod K))) wd) Hd)
    as [-> | [-> ->]]; unfold ret; cbn [fst snd negb andb];
    eexists; (split; [reflexivity|]); simpl; rewrite ?app_nil_r; auto.
Qed.

Lemma failoverLoop_exhausted (fuel i a : nat) (wd : world) :
  K <= a ->
  failoverLoop (S fuel) svc apiKeys i false a wd = Ret (false, a) wd.
Proof.
  intros Ha. cbn [failoverLoop]. fold K.
  assert (E : (a <? K) = false) by (apply Nat.ltb_ge; exact Ha).
  rewrite E. reflexivity.
Qed.

End Failover.

Lemma firstSuccess_Some (svc : Service) (i n : nat) :
  forall a a' items,
    firstSuccess svc i a n = Some (a', items) ->
    (a <= a' < a + n)%nat /\ decode (svc i a') = Some items
    /\ forall b, (a <= b < a')%nat -> decode (svc i b) = None.
Proof.
  induction n as [|n IH]; intros a a' items; simpl; [discriminate|].
  destruct (decode (svc i a)) as [its|] eqn:E.
  - intros H. injection H as <- <-.
    split; [lia|]. split; [exact E|]. intros b Hb. lia.
  - intros H. destruct (IH (S a) a' items H) as (Hr & Hd & Hbefore).
    split; [lia|]. split; [exact Hd|].
    intros b Hb. destruct (Nat.eq_dec b a) as [-> | Hne]; [exact E|].
    apply Hbefore. lia.
Qed.

Lemma firstSuccess_None (svc : Service) (i n : nat) :
  forall a,
    firstSuccess svc i a n = None ->
    forall b, (a <= b < a + n)%nat -> decode (svc i b) = None.
Proof.
  induction n as [|n IH]; intros a; simpl; [intros _ b Hb; lia|].
  destruct (decode (svc i a)) as [its|] eqn:E; [discriminate|].
  intros H b Hb. destruct (Nat.eq_dec b a) as [-> | Hne]; [exact E|].
  apply (IH (S a) H). lia.
Qed.

(** The failover loop ends, and [failoverPost] tells what it has done. *)
Lemma failoverLoop_spec (svc : Service) (apiKeys : list string) (i : nat)
    (fuel : nat) :
  forall a wd,
    (a <= List.length apiKeys)%nat ->
    (List.length apiKeys - a < fuel)%nat ->
    exists r wd',
      failoverLoop fuel svc apiKeys i false a wd = Ret r wd'
      /\ failoverPost svc apiKeys i a wd r wd'.
Proof.
  set (K := List.length apiKeys).
  induction fuel as [|fuel IH]; intros a wd Ha Hfuel; [lia|].
  destruct (Nat.eq_dec a K) as [-> | Hlt].
  - (* every key has been tried *)
    exists (false, K), wd. split.
    + apply failoverLoop_exhausted. fold K. lia.
    + exists [], 0%nat. fold K. rewrite Nat.sub_diag, app_nil_r. simpl.
      repeat split; lia.
  - assert (Ha' : (a < K)%nat) by lia.
    unfold failoverPost. fold K.
    replace (K - a)%nat with (S (K - S a)) by lia. cbn [firstSuccess].
    destruct (decode (svc i a)) as [items|] eqn:Hd.
    + (* this attempt succeeds *)
      destruct fuel as [|fuel]; [lia|].
      destruct (failoverLoop_ok_step svc apiKeys fuel i a items wd Ha' Hd)
        as (wd' & Erun & Hblocks & Hevs).
      exists (true, a), wd'. split; [exact Erun|].
      eexists. exists 1%nat. split; [exact Hevs|].
      simpl. rewrite Nat.eqb_refl, Nat.sub_diag.
      repeat split; try reflexivity; try lia. exact Hblocks.
    + (* this attempt fails; the next key is tried *)
      destruct (failoverLoop_fail_step svc apiKeys fuel i a wd Ha' Hd)
        as (key & Hkey & Estep).
      fold K in Hkey, Estep.
      set (wd1 := logged _ (logged _ wd)) in Estep.
      destruct (IH (S a) wd1 ltac:(lia) ltac:(lia)) as (r & wd' & Erun & Hpost).
      exists r, wd'. split; [rewrite Estep; exact Erun|].
      destruct Hpost as (evs & n & Hevs & Hreq & Hkeys & Hfailed & Hscans & Hn & Hres).
      fold K in Hkeys, Hn, Hres.
      exists (NewClient i a ((i + a) mod K) (Some key)
              :: ConsoleWarn (JsString.sliceLast 4 key) (i + 1) :: evs), (S n).
      split.
      { rewrite Hevs. unfold wd1. simpl. rewrite <- !app_assoc. reflexivity. }
      split.
      { simpl. rewrite Hreq. unfold planned at 2. fold K. rewrite Hkey. reflexivity. }
      split.
      { simpl. rewrite Nat.eqb_refl, Hkeys. reflexivity. }
      split; [exact Hfailed|]. split; [exact Hscans|]. split; [lia|].
      destruct (firstSuccess svc i (S a) (K - S a)) as [[a' items]|] eqn:Efs.
      * destruct Hres as (-> & -> & Hwarn & Hblocks).
        destruct (firstSuccess_Some svc i _ _ _ _ Efs) as (Hr & _ & _).
        unfold warnings in *. simpl. rewrite Hwarn.
        repeat split; try lia. exact Hblocks.
      * destruct Hres as (-> & -> & Hwarn & Hblocks).
        unfold warnings in *. simpl. rewrite Hwarn.
        repeat split; try lia. exact Hblocks.
Qed.

Lemma requests_app (evs evs' : list event) :
  requests (evs ++ evs') = requests evs ++ requests evs'.
Proof. apply flat_map_app. Qed.

Lemma failedSlices_app (evs evs' : list event) :
  failedSlices (evs ++ evs') = failedSlices evs ++ failedSlices evs'.
Proof. apply flat_map_app. Qed.

(** One turn of the [for] loop: the failover loop, then the error message
    when no key worked. *)
Lemma processSlice_spec (svc : Service) (apiKeys : list string) (i : nat)
    (wd : world) :
  exists wd' evs n,
    processSlice svc apiKeys i wd = Ret tt wd'
    /\ allBlocks wd' = allBlocks wd ++ sliceOutcome svc (List.length apiKeys) i
    /\ events wd' = events wd ++ evs
    /\ requests evs = map (planned apiKeys i) (seq 0 n)
    /\ (n <= List.length apiKeys)%nat
    /\ ((1 <= List.length apiKeys)%nat -> (1 <= n)%nat)
    /\ failedSlices evs
       = if sliceFails svc (List.length apiKeys) i then [(i + 1)%nat] else [].
Proof.
  set (K := List.length apiKeys).
  destruct (failoverLoop_spec svc apiKeys i (S K) 0 wd ltac:(lia) ltac:(fold K; lia))
    as (r & wd1 & Erun & evs & n & Hevs & Hreq & _ & Hfailed & _ & Hn & Hres).
  fold K in Erun, Hn, Hres. rewrite Nat.sub_0_r in Hres.
  unfold processSlice, bind. fold K. rewrite Erun.
  unfold sliceOutcome, sliceFails.
  destruct (firstSuccess svc i 0 K) as [[a' items]|] eqn:Efs.
  - destruct Hres as (-> & -> & _ & Hblocks). cbn [fst negb]. unfold ret.
    exists wd1, evs, (a' - 0 + 1)%nat.
    split; [reflexivity|]. split; [exact Hblocks|]. split; [exact Hevs|].
    split; [exact Hreq|]. split; [lia|]. split; [lia | exact Hfailed].
  - destruct Hres as (-> & -> & _ & Hblocks). cbn [fst negb]. unfold emit.
    exists (logged (ConsoleError (i + 1)) wd1), (evs ++ [ConsoleError (i + 1)]), K.
    split; [reflexivity|]. split; [simpl; rewrite Hblocks, app_nil_r; reflexivity|].
    split; [simpl; rewrite Hevs, <- app_assoc; reflexivity|].
    split; [rewrite requests_app, Hreq; simpl; rewrite app_nil_r; reflexivity|].
    split; [lia|]. split; [lia|].
    rewrite failedSlices_app, Hfailed. reflexivity.
Qed.

(** The [for] loop over the slice indices [idxs]: it always runs to its end;
    each slice leaves its own outcome in [allBlocks], in the order of the
    indices, and every request is the planned one. *)
Lemma forEach_processSlice_spec (svc : Service) (apiKeys : list string)
    (idxs : list nat) :
  forall wd,
  exists wd' evs,
    forEachM idxs (processSlice svc apiKeys) wd = Ret tt wd'
    /\ allBlocks wd'
       = allBlocks wd ++ List.concat (map (sliceOutcome svc (List.length apiKeys)) idxs)
    /\ events wd' = events wd ++ evs
    /\ (forall r, In r (requests evs) ->
                  exists i a, r = planned apiKeys i a
                              /\ (a < List.length apiKeys)%nat /\ In i idxs)
    /\ ((1 <= List.length apiKeys)%nat ->
        forall i, In i idxs -> In (planned apiKeys i 0) (requests evs))
    /\ failedSlices evs
       = map (fun i => (i + 1)%nat)
             (filter (sliceFails svc (List.length apiKeys)) idxs).
Proof.
  set (K := List.length apiKeys).
  induction idxs as [|i idxs IH]; intros wd.
  - exists wd, []. simpl. rewrite !app_nil_r.
    repeat split; try reflexivity; intros; contradiction.
  - destruct (processSlice_spec svc apiKeys i wd)
      as (wd1 & evs1 & n & Erun1 & Hb1 & He1 & Hreq1 & Hn & Hn1 & Hf1).
    destruct (IH wd1) as (wd' & evs2 & Erun2 & Hb2 & He2 & Hreq2 & Hfirst2 & Hf2).
    fold K in Hb1, Hn, Hn1, Hf1.
    exists wd', (evs1 ++ evs2).
    split; [cbn [forEachM]; unfold bind; rewrite Erun1; exact Erun2|].
    split; [rewrite Hb2, Hb1; simpl; rewrite <- app_assoc; reflexivity|].
    split; [rewrite He2, He1, <- app_assoc; reflexivity|].
    split; [|split].
    + intros r Hr. rewrite requests_app in Hr. apply in_app_or in Hr.
      destruct Hr as [Hr | Hr].
      * rewrite Hreq1 in Hr. apply in_map_iff in Hr. destruct Hr as (a & <- & Ha).
        apply in_seq in Ha. exists i, a. repeat split; [lia | left; reflexivity].
      * destruct (Hreq2 r Hr) as (j & a & -> & Ha & Hj).
        exists j, a. repeat split; [exact Ha | right; exact Hj].
    + intros HK j Hj. rewrite requests_app. apply in_or_app.
      destruct Hj as [<- | Hj].
      * left. rewrite Hreq1. apply in_map. apply in_seq.
        specialize (Hn1 HK). lia.
      * right. apply Hfirst2; assumption.
    + rewrite failedSlices_app, Hf1, Hf2. simpl.
      destruct (sliceFails svc K i); reflexivity.
Qed.

(** ** Key rotation and dispatch outcomes *)

(** Within one round of the pool, different attempts use different keys. *)
Lemma rotation_injective (i K a b : nat) :
  (a < K)%nat -> (b < K)%nat ->
  ((i + a) mod K = (i + b) mod K)%nat -> a = b.
Proof.
  intros Ha Hb E.
  pose proof (Nat.div_mod_eq (i + a) K) as Da.
  pose proof (Nat.div_mod_eq (i + b) K) as Db.
  rewrite E in Da.
  set (qa := ((i + a) / K)%nat) in *. set (qb := ((i + b) / K)%nat) in *.
  set (r := ((i + b) mod K)%nat) in *. clearbody qa qb r.
  assert (qa = qb) by nia. subst. lia.
Qed.

(** C3. Whatever the service answers, for this slice or for any other, every
    request that the loop over the slices makes for slice [i] on attempt [a]
    uses key index [(i + a) mod K] and the key at that index of the pool: the
    request is [planned apiKeys i a], a function of the pool, [i] and [a]
    alone.  With a pool that is not empty each slice is tried at least once,
    first with key index [i mod K]. *)
Theorem key_choice_is_rotation (svc : Service) (apiKeys : list string)
    (slices : list Slice) (wd : world) :
  exists wd' evs,
    processSlices svc apiKeys slices wd = Ret tt wd'
    /\ events wd' = events wd ++ evs
    /\ (forall i a k key,
           In (i, a, k, key) (requests evs) ->
           k = ((i + a) mod List.length apiKeys)%nat
           /\ key = nth_error apiKeys k
           /\ (a < List.length apiKeys)%nat
           /\ (i < List.length slices)%nat)
    /\ ((1 <= List.length apiKeys)%nat ->
        forall i, (i < List.length slices)%nat ->
                  In (i, 0%nat, (i mod List.length apiKeys)%nat,
                      nth_error apiKeys (i mod List.length apiKeys))
                     (requests evs)).
Proof.
  destruct (forEach_processSlice_spec svc apiKeys (seq 0 (List.length slices)) wd)
    as (wd' & evs & Erun & _ & Hevs & Hreq & Hfirst & _).
  exists wd', evs. split; [exact Erun|]. split; [exact Hevs|]. split.
  - intros i a k key Hin.
    destruct (Hreq _ Hin) as (j & b & E & Hb & Hj).
    unfold planned in E. injection E as -> -> -> ->.
    apply in_seq in Hj. repeat split; [exact Hb | lia].
  - intros HK i Hi.
    specialize (Hfirst HK i ltac:(apply in_seq; lia)).
    unfold planned in Hfirst. rewrite Nat.add_0_r in Hfirst. exact Hfirst.
Qed.

Lemma key_choice_is_rotation_witness :
  exists wd' evs,
    processSlices Samples.firstSliceFails Samples.keys2
                  [mkSlice 0 2996; mkSlice 2996 2996; mkSlice 5992 1008]
                  initWorld = Ret tt wd'
    /\ events wd' = events initWorld ++ evs
    /\ In (1%nat, 0%nat, 1%nat, Some "key-BBBB") (requests evs).
Proof.
  destruct (key_choice_is_rotation Samples.firstSliceFails Samples.keys2
              [mkSlice 0 2996; mkSlice 2996 2996; mkSlice 5992 1008] initWorld)
    as (wd' & evs & Erun & Hevs & _ & Hfirst).
  exists wd', evs. split; [exact Erun|]. split; [exact Hevs|].
  apply (Hfirst ltac:(simpl; lia) 1%nat). simpl. lia.
Defined.

(** C9. The key indices requested in one run of the failover loop for slice
    [i] are [(i + a) mod K] for [a = 0, 1, ...], at most [K] of them, and no
    index occurs twice; indeed two different attempts below [K] never share a
    key index. *)
Theorem keys_tried_are_distinct (svc : Service) (apiKeys : list string)
    (i : nat) (wd : world) :
  (exists r wd' evs n,
      failoverLoop (S (List.length apiKeys)) svc apiKeys i false 0 wd = Ret r wd'
      /\ events wd' = events wd ++ evs
      /\ keysTried i evs
         = map (fun a => ((i + a) mod List.length apiKeys)%nat) (seq 0 n)
      /\ (n <= List.length apiKeys)%nat
      /\ NoDup (keysTried i evs))
  /\ (forall a b, (a < List.length apiKeys)%nat -> (b < List.length apiKeys)%nat ->
                  a <> b ->
                  ((i + a) mod List.length apiKeys
                   <> (i + b) mod List.length apiKeys)%nat).
Proof.
  set (K := List.length apiKeys). split.
  - destruct (failoverLoop_spec svc apiKeys i (S K) 0 wd ltac:(lia) ltac:(fold K; lia))
      as (r & wd' & Erun & evs & n & Hevs & _ & Hkeys & _ & _ & Hn & _).
    fold K in Hkeys, Hn.
    exists r, wd', evs, n. split; [exact Erun|]. split; [exact Hevs|].
    split; [exact Hkeys|]. split; [lia|].
    rewrite Hkeys. apply NoDup_map_NoDup_ForallPairs; [|apply seq_NoDup].
    intros a b Ha Hb E. apply in_seq in Ha. apply in_seq in Hb.
    apply (rotation_injective i K a b); [lia | lia | exact E].
  - intros a b Ha Hb Hne E. apply Hne.
    exact (rotation_injective i K a b Ha Hb E).
Qed.

Lemma keys_tried_are_distinct_witness :
  (0 < List.length Samples.keys2)%nat /\ (1 < List.length Samples.keys2)%nat /\
  0%nat <> 1%nat /\
  ((5 + 0) mod List.length Samples.keys2
   <> (5 + 1) mod List.length Samples.keys2)%nat.
Proof.
  split; [simpl; lia|]. split; [simpl; lia|]. split; [discriminate|].
  apply (proj2 (keys_tried_are_distinct Samples.down Samples.keys2 5 initWorld)
               0%nat 1%nat); simpl; lia.
Defined.

Example keys_tried_when_all_fail :
  exists wd',
    failoverLoop 3 Samples.down Samples.keys2 5 false 0 initWorld
    = Ret (false, 2%nat) wd'
    /\ keysTried 5 (events wd') = [1%nat; 0%nat].
Proof. eexists. split; [vm_compute; reflexivity | reflexivity]. Qed.

(** C4. The failover loop of a slice ends after at most [K] requests, [K]
    the size of the pool.  It leaves either with [success] and the blocks of
    the one attempt that succeeded appended to [allBlocks], or without
    [success] after [K] failed attempts and with [allBlocks] as it was: never
    with blocks and a failure.  The loop over the slices always runs to its
    end: [allBlocks] receives the outcome of every slice, in order, a slice
    that failed with all keys contributing nothing and being reported. *)
Theorem dispatch_outcome (svc : Service) (apiKeys : list string) :
  (forall (i : nat) (wd : world),
      exists success attempts wd' evs,
        failoverLoop (S (List.length apiKeys)) svc apiKeys i false 0 wd
        = Ret (success, attempts) wd'
        /\ events wd' = events wd ++ evs
        /\ (List.length (requests evs) <= List.length apiKeys)%nat
        /\ ((success = true
             /\ exists items,
                 (attempts < List.length apiKeys)%nat
                 /\ decode (svc i attempts) = Some items
                 /\ List.length (requests evs) = S attempts
                 /\ allBlocks wd' = allBlocks wd ++ items)
            \/ (success = false
                /\ attempts = List.length apiKeys
                /\ List.length (requests evs) = List.length apiKeys
                /\ (forall a, (a < List.length apiKeys)%nat ->
                              decode (svc i a) = None)
                /\ allBlocks wd' = allBlocks wd)))
  /\
  (forall (slices : list Slice) (wd : world),
      exists wd' evs,
        processSlices svc apiKeys slices wd = Ret tt wd'
        /\ allBlocks wd'
           = allBlocks wd
             ++ List.concat (map (sliceOutcome svc (List.length apiKeys))
                                 (seq 0 (List.length slices)))
        /\ events wd' = events wd ++ evs
        /\ failedSlices evs
           = map (fun i => (i + 1)%nat)
                 (filter (sliceFails svc (List.length apiKeys))
                         (seq 0 (List.length slices)))).
Proof.
  set (K := List.length apiKeys). split.
  - intros i wd.
    destruct (failoverLoop_spec svc apiKeys i (S K) 0 wd ltac:(lia) ltac:(fold K; lia))
      as (r & wd' & Erun & evs & n & Hevs & Hreq & _ & _ & _ & Hn & Hres).
    fold K in Hn, Hres. rewrite Nat.sub_0_r in Hres.
    assert (Hlen : List.length (requests evs) = n)
      by (rewrite Hreq, length_map, length_seq; reflexivity).
    destruct (firstSuccess svc i 0 K) as [[a' items]|] eqn:Efs.
    + destruct Hres as (-> & -> & _ & Hblocks).
      destruct (firstSuccess_Some svc i K 0 a' items Efs) as (Hr & Hd & _).
      exists true, a', wd', evs.
      split; [exact Erun|]. split; [exact Hevs|]. split; [lia|].
      left. split; [reflexivity|]. exists items.
      split; [lia|]. split; [exact Hd|]. split; [lia | exact Hblocks].
    + destruct Hres as (-> & -> & _ & Hblocks).
      exists false, K, wd', evs.
      split; [exact Erun|]. split; [exact Hevs|]. split; [lia|].
      right. split; [reflexivity|]. split; [reflexivity|]. split; [lia|].
      split; [|exact Hblocks].
      intros a Ha. apply (firstSuccess_None svc i K 0 Efs). lia.
  - intros slices wd.
    destruct (forEach_processSlice_spec svc apiKeys (seq 0 (List.length slices)) wd)
      as (wd' & evs & Erun & Hblocks & Hevs & _ & _ & Hfailed).
    exists wd', evs. repeat split; assumption.
Qed.

Example one_slice_fails_the_others_are_processed :
  exists wd',
    processSlices Samples.firstSliceFails Samples.keys2
                  [mkSlice 0 2996; mkSlice 2996 2996; mkSlice 5992 1008]
                  initWorld = Ret tt wd'
    /\ allBlocks wd'
       = [ JObj [("text", JStr " hi "); ("category", JStr "thought")];
           JObj [("text", JStr " hi "); ("category", JStr "thought")] ]
    /\ failedSlices (events wd') = [1%nat]
    /\ requests (events wd')
       = [ (0, 0, 0, Some "key-AAAA"); (0, 1, 1, Some "key-BBBB");
           (1, 0, 1, Some "key-BBBB"); (2, 0, 0, Some "key-AAAA") ]%nat.
Proof. eexists. split; [vm_compute; reflexivity | repeat split]. Qed.

(** C2, as stated, fails for text that is not JSON: [JSON.parse] throws inside
    the [try] block, the attempt is caught as a failure like a rejected
    request, a warning is logged, and the next key is tried. *)
Lemma undecodable_text_counterexample :
  JSON.parse (jsonStrOf (Some "oops")) = None
  /\ failoverLoop 3 Samples.garbled Samples.keys2 0 false 0 initWorld
     = Ret (false, 2%nat)
           {| allBlocks := [];
              events := [ NewClient 0 0 0 (Some "key-AAAA"); ConsoleWarn "AAAA" 1;
                          NewClient 0 1 1 (Some "key-BBBB"); ConsoleWarn "BBBB" 1 ] |}
  /\ processSlice Samples.garbled Samples.keys2 0 initWorld
     = Ret tt
           {| allBlocks := [];
              events := [ NewClient 0 0 0 (Some "key-AAAA"); ConsoleWarn "AAAA" 1;
                          NewClient 0 1 1 (Some "key-BBBB"); ConsoleWarn "BBBB" 1;
                          ConsoleError 1 ] |}.
Proof. repeat split; vm_compute; reflexivity. Qed.

(** C2, amended.  For a response with a text, on attempt [a] with a key left
    to try: if the text decodes to a value that is not a list, the attempt is
    a success, nothing is appended to [allBlocks], no warning is logged and
    the loop ends without another request; if the text is not decodable, the
    attempt is a failure: a warning is logged and the loop goes on with
    attempt [a + 1]. *)
Theorem nonlist_succeeds_undecodable_fails (svc : Service)
    (apiKeys : list string) (i a : nat) (text : option string) (wd : world) :
  (a < List.length apiKeys)%nat ->
  svc i a = Resolves text ->
  (forall v, JSON.parse (jsonStrOf text) = Some v ->
             (forall items, v <> JArr items) ->
             forall fuel, exists wd',
               failoverLoop (S (S fuel)) svc apiKeys i false a wd
               = Ret (true, a) wd'
               /\ allBlocks wd' = allBlocks wd
               /\ events wd'
                  = events wd
                    ++ [NewClient i a ((i + a) mod List.length apiKeys)
                          (nth_error apiKeys ((i + a) mod List.length apiKeys))])
  /\ (JSON.parse (jsonStrOf text) = None ->
      forall fuel, exists key,
        nth_error apiKeys ((i + a) mod List.length apiKeys) = Some key
        /\ failoverLoop (S fuel) svc apiKeys i false a wd
           = failoverLoop fuel svc apiKeys i false (S a)
               (logged (ConsoleWarn (JsString.sliceLast 4 key) (i + 1))
                  (logged (NewClient i a ((i + a) mod List.length apiKeys)
                                     (Some key)) wd))).
Proof.
  intros Ha Hsvc. split.
  - intros v Hparse Hnot fuel.
    assert (Hd : decode (svc i a) = Some []).
    { unfold decode. rewrite Hsvc, Hparse.
      destruct v; try reflexivity. exfalso. exact (Hnot items eq_refl). }
    destruct (failoverLoop_ok_step svc apiKeys fuel i a [] wd Ha Hd)
      as (wd' & Erun & Hblocks & Hevs).
    exists wd'. rewrite app_nil_r in Hblocks. auto.
  - intros Hparse fuel.
    assert (Hd : decode (svc i a) = None).
    { unfold decode. rewrite Hsvc, Hparse. reflexivity. }
    exact (failoverLoop_fail_step svc apiKeys fuel i a wd Ha Hd).
Qed.

Lemma nonlist_succeeds_undecodable_fails_witness :
  (0 < List.length Samples.keys2)%nat /\
  Samples.objectReply 0%nat 0%nat
  = Resolves (Some (Samples.quoted "{'text': 'hi'}")) /\
  exists wd',
    failoverLoop 3 Samples.objectReply Samples.keys2 0 false 0 initWorld
    = Ret (true, 0%nat) wd'
    /\ allBlocks wd' = []
    /\ events wd' = [NewClient 0 0 0 (Some "key-AAAA")].
Proof.
  split; [simpl; lia|]. split; [reflexivity|].
  apply (proj1 (nonlist_succeeds_undecodable_fails Samples.objectReply
                  Samples.keys2 0 0 (Some (Samples.quoted "{'text': 'hi'}")) initWorld
                  ltac:(simpl; lia) eq_refl)
               (JObj [("text", JStr "hi")]) eq_refl).
  intros items. discriminate.
Defined.

Lemma dispatch_outcome_witness :
  exists wd',
    processSlices Samples.firstSliceFails Samples.keys2
                  [mkSlice 0 2996; mkSlice 2996 2996; mkSlice 5992 1008]
                  initWorld = Ret tt wd'
    /\ allBlocks wd'
       = List.concat (map (sliceOutcome Samples.firstSliceFails 2)
                          [0; 1; 2]%nat).
Proof.
  destruct (proj2 (dispatch_outcome Samples.firstSliceFails Samples.keys2)
              [mkSlice 0 2996; mkSlice 2996 2996; mkSlice 5992 1008] initWorld)
    as (wd' & evs & Erun & Hblocks & _).
  exists wd'. split; [exact Erun | exact Hblocks].
Defined.

(** ** The loops and their fuel *)

Lemma failoverLoop_step (fuel : nat) (svc : Service) (apiKeys : list string)
    (i : nat) (success : bool) (attempts : nat) (wd : world) :
  failoverLoop (S fuel) svc apiKeys i success attempts wd
  = if negb success && (attempts <? List.length apiKeys)%nat then
      let keyIndex := ((i + attempts) mod List.length apiKeys)%nat in
      let currentKey := nth_error apiKeys keyIndex in
      match (emit (NewClient i attempts keyIndex currentKey) ;;
             tryCatch
               (s <- tryBlock svc i attempts ;; ret (s, attempts))
               (fun _ => a <- catchBlock currentKey i attempts ;;
                         ret (success, a))) wd with
      | Ret r wd' => failoverLoop fuel svc apiKeys i (fst r) (snd r) wd'
      | Throw e wd' => Throw e wd'
      | OutOfFuel => OutOfFuel
      end
    else Ret (success, attempts) wd.
Proof.
  cbn [failoverLoop].
  destruct (negb success && (attempts <? List.length apiKeys)%nat);
    [|reflexivity].
  cbv zeta. unfold bind, emit.
  destruct (tryCatch _ _ _) as [r wd'| |]; reflexivity.
Qed.

(** More fuel does not change what the failover loop returns. *)
Lemma failoverLoop_more_fuel (svc : Service) (apiKeys : list string) (i : nat)
    (fuel : nat) :
  forall success attempts wd r wd',
    failoverLoop fuel svc apiKeys i success attempts wd = Ret r wd' ->
    forall extra,
      failoverLoop (fuel + extra) svc apiKeys i success attempts wd = Ret r wd'.
Proof.
  induction fuel as [|fuel IH]; intros success attempts wd r wd' Hrun extra;
    [discriminate Hrun|].
  change (S fuel + extra)%nat with (S (fuel + extra)).
  rewrite failoverLoop_step in *.
  destruct (negb success && (attempts <? List.length apiKeys)%nat);
    [|exact Hrun].
  cbv zeta in *.
  destruct ((emit _ ;; tryCatch _ _) wd) as [r1 wd1| |]; try discriminate Hrun.
  apply IH. exact Hrun.
Qed.

(** ** Whole runs *)

Example processManhwa_run :
  exists wd',
    processManhwa Samples.firstSliceFails (Samples.white 10 7000)
                  Samples.keys2 initWorld
    = Ret ("(): hi" ++ newline ++ "(): hi" ++ newline)%string wd'
    /\ failedSlices (events wd') = [1%nat]
    /\ scans (events wd') = 2%nat.
Proof. eexists. split; [vm_compute; reflexivity | split; reflexivity]. Qed.

(** A [null] among the blocks makes the output pass throw. *)
Example null_block_aborts_the_output :
  processManhwa (fun _ _ => Resolves (Some "[null]")) (Samples.white 10 100)
                Samples.keys2 initWorld
  = Throw TypeError
          {| allBlocks := [JNull];
             events := [NewClient 0 0 0 (Some "key-AAAA")] |}.
Proof. vm_compute. reflexivity. Qed.

(* ================================================================== *)
(** * Further properties *)
(* ================================================================== *)

(** ** The row that the scan chooses *)

(** The outer loop either keeps its state, no row scoring below [minEnergy],
    or ends on the first row of least score. *)
Lemma scan_fold_argmin (d : ImageData) (w startScan scanH : Z) (ys : list Z) :
  forall (bestY : Z) (minEnergy : Q),
    let r := fold_left (scanRow d w startScan scanH) ys (bestY, minEnergy) in
    (r = (bestY, minEnergy)
     /\ forall y, In y ys -> (minEnergy <= finalScore d w scanH y)%Q)
    \/ (exists pre y post,
           ys = pre ++ y :: post
           /\ r = (startScan + y, finalScore d w scanH y)
           /\ (finalScore d w scanH y < minEnergy)%Q
           /\ (forall y', In y' pre ->
                          (finalScore d w scanH y < finalScore d w scanH y')%Q)
           /\ (forall y', In y' post ->
                          (finalScore d w scanH y <= finalScore d w scanH y')%Q)).
Proof.
  induction ys as [|y0 ys IH]; intros bestY minEnergy; cbn [fold_left].
  - left. split; [reflexivity | intros y []].
  - assert (E0 : scanRow d w startScan scanH (bestY, minEnergy) y0
                 = if Qltb (finalScore d w scanH y0) minEnergy
                   then (startScan + y0, finalScore d w scanH y0)
                   else (bestY, minEnergy)) by reflexivity.
    rewrite E0. clear E0.
    destruct (Qltb (finalScore d w scanH y0) minEnergy) eqn:E.
    + apply Qltb_true in E.
      destruct (IH (startScan + y0) (finalScore d w scanH y0))
        as [[Er Hall] | (pre & y & post & -> & Er & Hlt & Hpre & Hpost)].
      * right. exists [], y0, ys. cbv zeta in Er.
        split; [reflexivity|]. split; [exact Er|]. split; [exact E|].
        split; [intros y' [] | exact Hall].
      * right. exists (y0 :: pre), y, post. cbv zeta in Er.
        split; [reflexivity|]. split; [exact Er|].
        split; [eapply Qlt_trans; eassumption|].
        split; [|exact Hpost].
        intros y' [<- | Hy']; [exact Hlt | apply Hpre; exact Hy'].
    + assert (Hge : (minEnergy <= finalScore d w scanH y0)%Q).
      { apply Qnot_lt_le. intros Hlt. apply Qltb_true in Hlt. congruence. }
      destruct (IH bestY minEnergy)
        as [[Er Hall] | (pre & y & post & -> & Er & Hlt & Hpre & Hpost)].
      * left. cbv zeta in Er. split; [exact Er|].
        intros y [<- | Hy]; [exact Hge | apply Hall; exact Hy].
      * right. exists (y0 :: pre), y, post. cbv zeta in Er.
        split; [reflexivity|]. split; [exact Er|]. split; [exact Hlt|].
        split; [|exact Hpost].
        intros y' [<- | Hy']; [|apply Hpre; exact Hy'].
        eapply Qlt_le_trans; eassumption.
Qed.

(** The counter of a [for] loop only grows. *)
Lemma countUp_split (stop step : Z) (pre post : list Z) (y : Z) :
  0 < step ->
  countUp stop step = pre ++ y :: post ->
  (forall y', In y' pre -> y' < y) /\ (forall y', In y' post -> y < y').
Proof.
  intros Hstep. unfold countUp.
  generalize (Z.to_nat ((stop + step - 1) / step)) as n.
  generalize 0%nat as a. revert y post.
  induction pre as [|p pre IH]; intros y post a n E.
  - split; [intros y' []|]. intros y' Hy'.
    destruct n as [|n]; [discriminate E|]. cbn [seq map] in E.
    injection E as <- <-. apply in_map_iff in Hy'.
    destruct Hy' as (k & <- & Hk). apply in_seq in Hk. nia.
  - destruct n as [|n]; [discriminate E|]. cbn [seq map] in E.
    cbn [app] in E. injection E as <- E.
    destruct (IH y post (S a) n E) as [Hpre Hpost].
    split; [|exact Hpost].
    intros y' [<- | Hy']; [|apply Hpre; exact Hy'].
    assert (Hin : In y (map (fun k => Z.of_nat k * step) (seq (S a) n)))
      by (rewrite E; apply in_or_app; right; left; reflexivity).
    apply in_map_iff in Hin. destruct Hin as (k & <- & Hk).
    apply in_seq in Hk. nia.
Qed.

(** A scan returns the first row of least score among those it visits. *)
Lemma scan_least_score (ctx : Canvas)
    (w currentY maxH minH : Z) (wd : world) :
  maxH < height ctx - currentY -> 0 < w -> minH < maxH ->
  4 * w * (maxH - minH) < 2 ^ 53 ->
  exists d y,
    getImageData ctx 0 (currentY + minH) w (maxH - minH) wd
    = Ret d (logged (GetImageData 0 (currentY + minH) w (maxH - minH)) wd)
    /\ findBestCutPosition ctx w currentY maxH minH wd
       = Ret (minH + y)
             (logged (GetImageData 0 (currentY + minH) w (maxH - minH)) wd)
    /\ In y (countUp (maxH - minH) 4)
    /\ (exists k, y = 4 * k) /\ 0 <= y < maxH - minH
    /\ forall y', In y' (countUp (maxH - minH) 4) ->
                  (finalScore d w (maxH - minH) y
                   <= finalScore d w (maxH - minH) y')%Q
                  /\ (y' < y ->
                      (finalScore d w (maxH - minH) y
                       < finalScore d w (maxH - minH) y')%Q).
Proof.
  intros Hrem Hw Hm Hsafe.
  assert (Hw' : w <> 0) by lia.
  destruct (findBestCutPosition_unfold ctx w currentY maxH minH wd Hrem Hw' Hm)
    as [d Erun].
  assert (Eget : getImageData ctx 0 (currentY + minH) w (maxH - minH) wd
                 = Ret {| data := fun idx =>
                            canvasPixel ctx (0 + (idx / 4) mod w)
                                        (currentY + minH + (idx / 4) / w)
                                        (idx mod 4) |}
                       (logged (GetImageData 0 (currentY + minH) w (maxH - minH)) wd)).
  { unfold getImageData, bind, emit.
    assert (Ew : (w =? 0) = false) by (apply Z.eqb_neq; exact Hw').
    assert (Eh : (maxH - minH =? 0) = false) by (apply Z.eqb_neq; lia).
    rewrite Ew, Eh. reflexivity. }
  assert (Erun' : findBestCutPosition ctx w currentY maxH minH wd
                  = match getImageData ctx 0 (currentY + minH) w (maxH - minH) wd with
                    | Ret imgData wd' =>
                        Ret (fst (fold_left (scanRow imgData w minH (maxH - minH))
                                            (countUp (maxH - minH) 4)
                                            (maxH, MAX_VALUE))) wd'
                    | Throw e wd' => Throw e wd'
                    | OutOfFuel => OutOfFuel
                    end).
  { unfold findBestCutPosition.
    assert (E : (height ctx - currentY <=? maxH) = false) by (apply Z.leb_gt; lia).
    rewrite E. reflexivity. }
  rewrite Eget in Erun'. clear d Erun.
  set (d := {| data := _ |}) in *.
  destruct (scan_fold_argmin d w minH (maxH - minH) (countUp (maxH - minH) 4)
              maxH MAX_VALUE)
    as [[_ Hall] | (pre & y & post & Esplit & Er & _ & Hpre & Hpost)].
  - exfalso.
    destruct (countUp_head (maxH - minH) 4 ltac:(lia) ltac:(lia)) as [ys Eys].
    specialize (Hall 0 ltac:(rewrite Eys; left; reflexivity)).
    pose proof (first_score_below_MAX_VALUE d w (maxH - minH) Hw Hsafe) as Hlt.
    apply Qltb_true in Hlt. exact (Qlt_not_le _ _ Hlt Hall).
  - cbv zeta in Er. rewrite Er in Erun'. cbn [fst] in Erun'.
    destruct (countUp_split (maxH - minH) 4 pre post y ltac:(lia) Esplit)
      as [Hbefore Hafter].
    assert (Hin : In y (countUp (maxH - minH) 4))
      by (rewrite Esplit; apply in_or_app; right; left; reflexivity).
    exists d, y. split; [exact Eget|]. split; [exact Erun'|].
    split; [exact Hin|]. split.
    { unfold countUp in Hin. apply in_map_iff in Hin.
      destruct Hin as (k & <- & _). exists (Z.of_nat k). lia. }
    split; [exact (countUp_In (maxH - minH) 4 y ltac:(lia) Hin)|].
    intros y' Hy'. rewrite Esplit in Hy'. apply in_app_or in Hy'.
    destruct Hy' as [Hy' | [<- | Hy']].
    + split; [apply Qlt_le_weak; apply Hpre; exact Hy'|].
      intros _. apply Hpre. exact Hy'.
    + split; [apply Qle_refl | intros; lia].
    + split; [apply Hpost; exact Hy'|].
      intros Hlt. specialize (Hafter y' Hy'). lia.
Qed.

Lemma getImageData_windowData (ctx : Canvas) (sy w h : Z) (wd : world) :
  w <> 0 -> h <> 0 ->
  getImageData ctx 0 sy w h wd
  = Ret (windowData ctx 0 sy w) (logged (GetImageData 0 sy w h) wd).
Proof.
  intros Hw Hh. unfold getImageData, bind, emit.
  apply Z.eqb_neq in Hw. apply Z.eqb_neq in Hh. rewrite Hw, Hh. reflexivity.
Qed.

(** X1. In [processManhwa] (window of 1500 rows, positive width, data of a
    safe length), when more than 3000 rows remain and one visited row [y0]
    of the window scores lower than every other visited row by at least
    0.001, the slice is cut at that row: its height is [1500 + y0].  (The
    margin is far above what rounding changes in scores of at most 4120.) *)
Theorem clearly_quietest_row_is_cut (image : Canvas) (currentY y0 : Z)
    (wd : world) :
  MAX_SLICE < height image - currentY -> 0 < width image ->
  4 * width image * (MAX_SLICE - MIN_SLICE) < 2 ^ 53 ->
  In y0 (countUp (MAX_SLICE - MIN_SLICE) 4) ->
  (forall y,
      In y (countUp (MAX_SLICE - MIN_SLICE) 4) -> y <> y0 ->
      (finalScore (windowData image 0 (currentY + MIN_SLICE) (width image))
                  (width image) (MAX_SLICE - MIN_SLICE) y0 + (1 # 1000)
       <= finalScore (windowData image 0 (currentY + MIN_SLICE) (width image))
                     (width image) (MAX_SLICE - MIN_SLICE) y)%Q) ->
  findBestCutPosition image (width image) currentY MAX_SLICE MIN_SLICE wd
  = Ret (MIN_SLICE + y0)
        (logged (GetImageData 0 (currentY + MIN_SLICE) (width image)
                              (MAX_SLICE - MIN_SLICE)) wd).
Proof.
  intros Hrem Hw Hsafe Hy0 Hclear.
  destruct (scan_least_score image (width image) currentY MAX_SLICE MIN_SLICE wd
              Hrem Hw ltac:(reflexivity) Hsafe)
    as (d & y & Eget & Erun & Hin & _ & _ & Hleast).
  rewrite getImageData_windowData in Eget by (lia || discriminate).
  injection Eget as <-.
  rewrite Erun. f_equal. f_equal.
  destruct (Z.eq_dec y y0) as [E | Hne]; [exact E|]. exfalso.
  destruct (Hleast y0 Hy0) as [Hle _].
  specialize (Hclear y Hin Hne).
  pose proof (Qle_trans _ _ _ Hclear Hle) as Habs.
  rewrite <- (Qplus_0_r (finalScore _ _ _ y0)) in Habs at 2.
  apply Qplus_le_r in Habs. unfold Qle in Habs. simpl in Habs. lia.
Qed.

Lemma clearly_quietest_row_is_cut_witness :
  findBestCutPosition (Samples.greyWithWhiteRow 5000 1500) 10 0
                      MAX_SLICE MIN_SLICE initWorld
  = Ret (MIN_SLICE + 0)
        (logged (GetImageData 0 (0 + MIN_SLICE) 10 (MAX_SLICE - MIN_SLICE))
                initWorld).
Proof.
  apply (clearly_quietest_row_is_cut (Samples.greyWithWhiteRow 5000 1500) 0 0
           initWorld); try reflexivity.
  - left. reflexivity.
  - intros y Hy Hne.
    assert (Hall : forallb
              (fun y => (y =? 0)
                        || Qle_bool
                             (finalScore (windowData (Samples.greyWithWhiteRow 5000 1500)
                                                     0 (0 + MIN_SLICE) 10)
                                         10 (MAX_SLICE - MIN_SLICE) 0 + (1 # 1000))
                             (finalScore (windowData (Samples.greyWithWhiteRow 5000 1500)
                                                     0 (0 + MIN_SLICE) 10)
                                         10 (MAX_SLICE - MIN_SLICE) y))
              (countUp (MAX_SLICE - MIN_SLICE) 4) = true)
      by (vm_compute; reflexivity).
    rewrite forallb_forall in Hall. specialize (Hall y Hy).
    apply orb_true_iff in Hall. destruct Hall as [E | E].
    + apply Z.eqb_eq in E. contradiction.
    + apply Qle_bool_iff in E. exact E.
Defined.

(** ** Scanning an image whose rows are alike *)

Lemma fold_left_ext_in {A B : Type} (f g : A -> B -> A) (l : list B) :
  (forall a x, In x l -> f a x = g a x) ->
  forall a, fold_left f l a = fold_left g l a.
Proof.
  induction l as [|x l IH]; intros H a; [reflexivity|].
  cbn [fold_left]. rewrite (H a x (or_introl eq_refl)).
  apply IH. intros a' x' Hx'. apply H. right. exact Hx'.
Qed.

(** The bytes of pixel [x] of row [y] of the window. *)
Lemma window_data (ctx : Canvas) (sy w x y k : Z) :
  0 < w -> 0 <= x < w -> 0 <= k < 4 ->
  canvasPixel ctx (0 + ((y * w + x) * 4 + k) / 4 mod w)
              (sy + ((y * w + x) * 4 + k) / 4 / w)
              (((y * w + x) * 4 + k) mod 4)
  = canvasPixel ctx x (sy + y) k.
Proof.
  intros Hw Hx Hk.
  assert (E4 : ((y * w + x) * 4 + k) / 4 = y * w + x).
  { rewrite Z.add_comm, Z.div_add by lia. rewrite (Z.div_small k 4) by lia. lia. }
  assert (Em : ((y * w + x) * 4 + k) mod 4 = k).
  { rewrite Z.add_comm, Z.mod_add by lia. apply Z.mod_small. lia. }
  assert (Ed : (y * w + x) / w = y).
  { rewrite Z.add_comm, Z.div_add by lia. rewrite (Z.div_small x w) by lia. lia. }
  assert (Er : (y * w + x) mod w = x).
  { rewrite Z.add_comm, Z.mod_add by lia. apply Z.mod_small. lia. }
  rewrite E4, Em, Ed, Er. reflexivity.
Qed.

(** On a canvas whose rows are alike the rows of a window inside it have the
    same energy. *)
Lemma rowEnergy_rows_alike (image : Canvas) (sy scanH y y' : Z) :
  (forall x r r' c, pixels image x r c = pixels image x r' c) ->
  0 < width image ->
  0 <= sy + y < height image -> 0 <= sy + y' < height image ->
  rowEnergy {| data := fun idx =>
                 canvasPixel image (0 + (idx / 4) mod width image)
                             (sy + (idx / 4) / width image) (idx mod 4) |}
            (width image) y
  = rowEnergy {| data := fun idx =>
                   canvasPixel image (0 + (idx / 4) mod width image)
                               (sy + (idx / 4) / width image) (idx mod 4) |}
              (width image) y'.
Proof.
  intros Halike Hw Hy Hy'. unfold rowEnergy. cbn [data].
  assert (Hpix : forall x k r, 0 <= x < width image -> 0 <= k < 4 ->
                   0 <= sy + r < height image ->
                   canvasPixel image
                     (0 + ((r * width image + x) * 4 + k) / 4 mod width image)
                     (sy + ((r * width image + x) * 4 + k) / 4 / width image)
                     (((r * width image + x) * 4 + k) mod 4)
                   = pixels image x 0 k).
  { intros x k r Hx Hk Hr. rewrite window_data by assumption.
    unfold canvasPixel.
    assert (E : ((0 <=? x) && (x <? width image) && (0 <=? sy + r)
                 && (sy + r <? height image)) = true).
    { rewrite !andb_true_iff, !Z.leb_le, !Z.ltb_lt. lia. }
    rewrite E. apply Halike. }
  apply fold_left_ext_in. intros a x Hx.
  apply (countUp_In (width image) 10 x ltac:(lia)) in Hx.
  pose proof (Hpix x 0 y Hx ltac:(lia) Hy) as E0. rewrite Z.add_0_r in E0.
  pose proof (Hpix x 0 y' Hx ltac:(lia) Hy') as E0'. rewrite Z.add_0_r in E0'.
  rewrite E0, E0', !(Hpix x 1), !(Hpix x 2) by (assumption || lia).
  reflexivity.
Qed.

Lemma lastScanned_In (scanH : Z) :
  0 < scanH -> In (lastScanned scanH) (countUp scanH 4).
Proof.
  intros H. unfold countUp, lastScanned. apply in_map_iff.
  exists (Z.to_nat ((scanH - 1) / 4)).
  assert (0 <= (scanH - 1) / 4) by (apply Z.div_pos; lia).
  split; [lia|]. apply in_seq.
  replace (scanH + 4 - 1) with (scanH - 1 + 1 * 4) by lia.
  rewrite Z.div_add by lia. lia.
Qed.

Lemma lastScanned_max (scanH y : Z) :
  In y (countUp scanH 4) -> y <= lastScanned scanH.
Proof.
  intros Hin. pose proof (countUp_In scanH 4 y ltac:(lia) Hin) as Hy.
  unfold countUp in Hin. apply in_map_iff in Hin. destruct Hin as (k & <- & _).
  unfold lastScanned.
  assert (Z.of_nat k <= (scanH - 1) / 4) by (apply Z.div_le_lower_bound; lia).
  lia.
Qed.

(** With rows alike the penalty alone orders the scores. *)
Lemma rows_alike_scan (image : Canvas)
    (currentY maxH minH : Z) (wd : world) :
  (forall x r r' c, pixels image x r c = pixels image x r' c) ->
  0 <= currentY -> 0 <= minH < maxH ->
  maxH < height image - currentY -> 0 < width image ->
  4 * width image * (maxH - minH) < 2 ^ 53 ->
  findBestCutPosition image (width image) currentY maxH minH wd
  = Ret (minH + lastScanned (maxH - minH))
        (logged (GetImageData 0 (currentY + minH) (width image) (maxH - minH)) wd).
Proof.
  intros Halike Hy Hm Hrem Hw Hsafe.
  destruct (scan_least_score image (width image) currentY
              maxH minH wd Hrem Hw ltac:(lia) Hsafe)
    as (d & y & Eget & Erun & Hin & _ & Hrange & Hleast).
  rewrite Erun. f_equal. f_equal.
  pose proof (lastScanned_max (maxH - minH) y Hin) as Hle.
  destruct (Z.eq_dec y (lastScanned (maxH - minH))) as [E | Hne]; [exact E|].
  exfalso.
  pose proof (lastScanned_In (maxH - minH) ltac:(lia)) as Hlast.
  pose proof (countUp_In (maxH - minH) 4 _ ltac:(lia) Hlast) as Hlr.
  destruct (Hleast _ Hlast) as [Hmin _].
  (* the data of the window *)
  assert (Ed : d = {| data := fun idx =>
                        canvasPixel image (0 + (idx / 4) mod width image)
                                    (currentY + minH + (idx / 4) / width image)
                                    (idx mod 4) |}).
  { unfold getImageData, bind, emit in Eget.
    assert (Ew : (width image =? 0) = false) by (apply Z.eqb_neq; lia).
    assert (Eh : (maxH - minH =? 0) = false) by (apply Z.eqb_neq; lia).
    rewrite Ew, Eh in Eget. cbn in Eget. injection Eget as <-. reflexivity. }
  assert (Erow : rowEnergy d (width image) y
                 = rowEnergy d (width image) (lastScanned (maxH - minH))).
  { rewrite Ed. apply rowEnergy_rows_alike; try assumption; lia. }
  apply (Qle_not_lt _ _ Hmin).
  unfold finalScore. rewrite Erow.
  apply Qplus_lt_r.
  unfold Qlt, Qmult, inject_Z. cbn [Qnum Qden]. lia.
Qed.

(** X2. On an image whose rows are all alike, with the window inside the
    image, the penalty alone decides: a scan cuts at the last row it visits,
    [minH + 4 * ((maxH - minH - 1) / 4)]. *)
Theorem rows_alike_cut_at_last_row (image : Canvas)
    (currentY maxH minH : Z) (wd : world) :
  (forall x r r' c, pixels image x r c = pixels image x r' c) ->
  0 <= currentY -> 0 <= minH < maxH ->
  maxH < height image - currentY -> 0 < width image ->
  4 * width image * (maxH - minH) < 2 ^ 53 ->
  findBestCutPosition image (width image) currentY maxH minH wd
  = Ret (minH + lastScanned (maxH - minH))
        (logged (GetImageData 0 (currentY + minH) (width image) (maxH - minH)) wd).
Proof.
  intros Halike Hy Hm Hrem Hw Hsafe.
  apply rows_alike_scan; assumption.
Qed.

Lemma rows_alike_cut_at_last_row_witness :
  findBestCutPosition (Samples.striped 7000) 10 0 MAX_SLICE MIN_SLICE initWorld
  = Ret 2996 (logged (GetImageData 0 1500 10 1500) initWorld).
Proof.
  apply (rows_alike_cut_at_last_row (Samples.striped 7000) 0
           MAX_SLICE MIN_SLICE initWorld);
    try reflexivity; try (split; [discriminate | reflexivity]); discriminate.
Defined.

(** ** What the slicing loop reads *)

Section SliceTrace.

Variable image : Canvas.
Variable cutOK : Z -> Prop.

Hypothesis scan_ok :
  forall currentY wd,
    0 <= currentY -> MAX_SLICE < height image - currentY ->
    exists bestY,
      findBestCutPosition image (width image) currentY MAX_SLICE MIN_SLICE wd
      = Ret bestY (logged (GetImageData 0 (currentY + MIN_SLICE) (width image)
                                        (MAX_SLICE - MIN_SLICE)) wd)
      /\ MIN_SLICE <= bestY <= MAX_SLICE /\ cutOK bestY.

(** The loop makes the slices [cuts], each after one scan of a window inside
    the image, and then at most one slice [final], without a scan. *)
Lemma sliceLoop_trace (fuel : nat) :
  forall currentY acc wd,
    0 <= currentY <= height image ->
    (Z.to_nat (height image - currentY) < fuel)%nat ->
    exists cuts final wd',
      sliceLoop fuel image currentY acc wd = Ret (acc ++ cuts ++ final) wd'
      /\ allBlocks wd' = allBlocks wd
      /\ events wd' = events wd ++ map (scanEvent image) cuts
      /\ Forall (fun s => 0 <= startY s
                          /\ MAX_SLICE < height image - startY s
                          /\ MIN_SLICE <= sliceHeight s <= MAX_SLICE
                          /\ cutOK (sliceHeight s)) cuts
      /\ ((final = [] /\ cuts = [] /\ currentY = height image)
          \/ (exists s, final = [s]
                        /\ 0 < sliceHeight s <= MAX_SLICE
                        /\ startY s + sliceHeight s = height image)).
Proof.
  induction fuel as [|fuel IH]; intros currentY acc wd Hy Hfuel; [lia|].
  rewrite sliceLoop_step.
  destruct (currentY <? height image) eqn:Elt.
  - apply Z.ltb_lt in Elt.
    destruct (Z_le_gt_dec (height image - currentY) MAX_SLICE) as [Hrest | Hscan].
    + rewrite (findBestCutPosition_rest image (width image) currentY
                 MAX_SLICE MIN_SLICE wd Hrest).
      destruct fuel as [|fuel]; [lia|].
      rewrite sliceLoop_step.
      assert (E : (currentY + (height image - currentY) <? height image) = false)
        by (apply Z.ltb_ge; lia).
      rewrite E.
      exists [], [{| startY := currentY; sliceHeight := height image - currentY |}], wd.
      split; [reflexivity|]. split; [reflexivity|].
      split; [simpl; rewrite app_nil_r; reflexivity|].
      split; [constructor|]. right. eexists. split; [reflexivity|].
      simpl. lia.
    + destruct (scan_ok currentY wd ltac:(lia) ltac:(lia)) as (bestY & -> & Hb & Hok).
      set (s := {| startY := currentY; sliceHeight := bestY |}).
      set (wd1 := logged _ wd).
      assert (Hb' : 1500 <= bestY <= 3000) by exact Hb.
      assert (Hscan' : height image - currentY > 3000) by exact Hscan.
      destruct (IH (currentY + bestY) (acc ++ [s]) wd1 ltac:(lia) ltac:(lia))
        as (cuts & final & wd' & Erun & Hblocks & Hevs & Hcuts & Hfinal).
      exists (s :: cuts), final, wd'.
      split; [rewrite Erun, <- app_assoc; reflexivity|].
      split; [exact Hblocks|].
      split; [rewrite Hevs; unfold wd1; simpl; rewrite <- app_assoc; reflexivity|].
      split.
      { constructor; [|exact Hcuts]. simpl. repeat split; try lia; assumption. }
      destruct Hfinal as [(_ & _ & Habs) | Hs]; [lia | right; exact Hs].
  - apply Z.ltb_ge in Elt. exists [], [], wd.
    split; [rewrite !app_nil_r; reflexivity|]. split; [reflexivity|].
    split; [simpl; rewrite app_nil_r; reflexivity|].
    split; [constructor|]. left. repeat split. lia.
Qed.

End SliceTrace.

Lemma scan_ok_weak_from (image : Canvas) :
  width image <> 0 ->
  forall currentY wd,
    0 <= currentY -> MAX_SLICE < height image - currentY ->
    exists bestY,
      findBestCutPosition image (width image) currentY MAX_SLICE MIN_SLICE wd
      = Ret bestY (logged (GetImageData 0 (currentY + MIN_SLICE) (width image)
                                        (MAX_SLICE - MIN_SLICE)) wd)
      /\ MIN_SLICE <= bestY <= MAX_SLICE /\ True.
Proof.
  intros Hw currentY wd _ Hrem. exact (scan_ok_weak image Hw currentY wd Hrem).
Qed.

Lemma removelast_cuts (cuts final : list Slice) :
  (final = [] /\ cuts = []) \/ (exists s, final = [s]) ->
  removelast (cuts ++ final) = cuts.
Proof.
  intros [[-> ->] | [s ->]]; [reflexivity | apply removelast_last].
Qed.

Lemma scans_scanEvents (image : Canvas) (l : list Slice) :
  scans (map (scanEvent image) l) = List.length l.
Proof.
  unfold scans. induction l as [|s l IH]; [reflexivity|].
  cbn [map]. unfold scanEvent at 1. cbn [filter List.length].
  rewrite IH. reflexivity.
Qed.

(** X3. On an image of positive width the slicing loop calls [getImageData]
    once for each slice but the last and never otherwise; each call reads the
    full width of rows [startY + 1500 .. startY + 3000) of the slice it cuts,
    and these rows lie inside the image. *)
Theorem scans_stay_inside_image (image : Canvas) (wd : world) :
  0 < width image -> 0 <= height image ->
  exists slices wd',
    loadAndSlice image wd = Ret slices wd'
    /\ events wd' = events wd ++ map (scanEvent image) (removelast slices)
    /\ Forall (fun s => 0 <= startY s + MIN_SLICE
                        /\ startY s + MIN_SLICE + (MAX_SLICE - MIN_SLICE)
                           < height image)
              (removelast slices)
    /\ scans (map (scanEvent image) (removelast slices))
       = (List.length slices - 1)%nat.
Proof.
  intros Hw Hh. unfold loadAndSlice.
  destruct (sliceLoop_trace image (fun _ => True)
              (scan_ok_weak_from image ltac:(lia))
              (S (Z.to_nat (height image))) 0 [] wd ltac:(lia) ltac:(lia))
    as (cuts & final & wd' & Erun & _ & Hevs & Hcuts & Hfinal).
  assert (Hrl : removelast (cuts ++ final) = cuts).
  { apply removelast_cuts. destruct Hfinal as [(-> & -> & _) | (s & -> & _)];
      [left; split; reflexivity | right; eexists; reflexivity]. }
  exists (cuts ++ final), wd'. split; [exact Erun|]. rewrite Hrl.
  split; [exact Hevs|]. split.
  - eapply Forall_impl; [|exact Hcuts]. cbv beta.
    unfold MIN_SLICE, MAX_SLICE. intros s H. lia.
  - rewrite scans_scanEvents, length_app.
    destruct Hfinal as [(-> & -> & _) | (s & -> & _)]; simpl; lia.
Qed.

Lemma scans_stay_inside_image_witness :
  0 < width (Samples.white 10 7000) /\ 0 <= height (Samples.white 10 7000) /\
  exists slices wd',
    loadAndSlice (Samples.white 10 7000) initWorld = Ret slices wd'
    /\ events wd' = events initWorld
                    ++ map (scanEvent (Samples.white 10 7000)) (removelast slices).
Proof.
  split; [reflexivity|]. split; [discriminate|].
  destruct (scans_stay_inside_image (Samples.white 10 7000) initWorld)
    as (slices & wd' & Erun & Hevs & _); [reflexivity | discriminate |].
  exists slices, wd'. split; [exact Erun | exact Hevs].
Defined.

(** X4. On an image of positive width whose rows are all alike every slice
    but the last is 2996 rows high. *)
Theorem rows_alike_slices_of_2996 (image : Canvas) (wd : world) :
  (forall x r r' c, pixels image x r c = pixels image x r' c) ->
  0 < width image -> 0 <= height image ->
  4 * width image * (MAX_SLICE - MIN_SLICE) < 2 ^ 53 ->
  exists slices wd',
    loadAndSlice image wd = Ret slices wd'
    /\ Forall (fun s => sliceHeight s = 2996) (removelast slices).
Proof.
  intros Halike Hw Hh Hsafe. unfold loadAndSlice.
  destruct (sliceLoop_trace image (fun b => b = 2996)) with
    (fuel := S (Z.to_nat (height image))) (currentY := 0)
    (acc := @nil Slice) (wd := wd)
    as (cuts & final & wd' & Erun & _ & _ & Hcuts & Hfinal); try lia.
  - intros currentY wd0 Hy Hrem.
    exists 2996. split; [|split; [unfold MIN_SLICE, MAX_SLICE; lia | reflexivity]].
    apply (rows_alike_scan image currentY MAX_SLICE MIN_SLICE wd0);
      try assumption; unfold MIN_SLICE, MAX_SLICE; lia.
  - assert (Hrl : removelast (cuts ++ final) = cuts).
    { apply removelast_cuts. destruct Hfinal as [(-> & -> & _) | (s & -> & _)];
        [left; split; reflexivity | right; eexists; reflexivity]. }
    exists (cuts ++ final), wd'. split; [exact Erun|]. rewrite Hrl.
    eapply Forall_impl; [|exact Hcuts]. cbv beta. intros s H. apply H.
Qed.

Lemma rows_alike_slices_of_2996_witness :
  exists slices wd',
    loadAndSlice (Samples.striped 7000) initWorld = Ret slices wd'
    /\ Forall (fun s => sliceHeight s = 2996) (removelast slices).
Proof.
  apply (rows_alike_slices_of_2996 (Samples.striped 7000) initWorld);
    try reflexivity; discriminate.
Defined.

(** ** How many slices *)

Lemma heights_bounds (l : list Slice) :
  Forall (fun s => 0 < sliceHeight s <= MAX_SLICE) l ->
  Forall (fun s => MIN_SLICE <= sliceHeight s) (removelast l) ->
  sumHeights l <= MAX_SLICE * Z.of_nat (List.length l)
  /\ (l <> [] -> MIN_SLICE * (Z.of_nat (List.length l) - 1) < sumHeights l).
Proof.
  induction l as [|s l IH]; intros Hpos Hmin.
  - unfold sumHeights. simpl. split; [lia | congruence].
  - inversion Hpos as [|? ? Hs Hpos']; subst.
    rewrite sumHeights_cons, length_cons, Nat2Z.inj_succ.
    destruct l as [|t l].
    + unfold sumHeights, MIN_SLICE, MAX_SLICE in *. simpl. split; intros; lia.
    + change (removelast (s :: t :: l)) with (s :: removelast (t :: l)) in Hmin.
      inversion Hmin as [|? ? Hms Hmin']; subst.
      destruct (IH Hpos' Hmin') as [Hub Hlb].
      specialize (Hlb ltac:(discriminate)).
      unfold MIN_SLICE, MAX_SLICE in *. split; intros; lia.
Qed.

(** X5. An image of positive width and height H > 0 is cut into [n] slices
    with [H <= 3000 * n] and [1500 * (n - 1) < H]: at least H / 3000 and
    fewer than H / 1500 + 1 slices, whatever the image shows. *)
Theorem slice_count_bounds (image : Canvas) (wd : world) :
  0 < width image -> 0 < height image ->
  exists slices wd',
    loadAndSlice image wd = Ret slices wd'
    /\ height image <= MAX_SLICE * Z.of_nat (List.length slices)
    /\ MIN_SLICE * (Z.of_nat (List.length slices) - 1) < height image.
Proof.
  intros Hw Hh. unfold loadAndSlice.
  destruct (sliceLoop_spec image (fun _ => True)
              (scan_ok_weak image ltac:(lia))
              (S (Z.to_nat (height image))) 0 [] wd ltac:(lia) ltac:(lia))
    as (slices & wd' & Erun & _ & _ & Hsum & Hpos & Hmin).
  exists slices, wd'. split; [exact Erun|].
  destruct (heights_bounds slices Hpos) as [Hub Hlb].
  { eapply Forall_impl; [|exact Hmin]. cbv beta. intros s [H _]. exact H. }
  rewrite Hsum in Hub, Hlb. rewrite Z.sub_0_r in Hub, Hlb.
  split; [exact Hub|]. apply Hlb. intros ->.
  unfold sumHeights in Hsum. simpl in Hsum. lia.
Qed.

Lemma slice_count_bounds_witness :
  0 < width (Samples.white 10 7000) /\ 0 < height (Samples.white 10 7000) /\
  exists slices wd',
    loadAndSlice (Samples.white 10 7000) initWorld = Ret slices wd'
    /\ 7000 <= MAX_SLICE * Z.of_nat (List.length slices)
    /\ MIN_SLICE * (Z.of_nat (List.length slices) - 1) < 7000.
Proof.
  split; [reflexivity|]. split; [reflexivity|].
  apply (slice_count_bounds (Samples.white 10 7000) initWorld); reflexivity.
Defined.

(** ** The requests of a run *)

Lemma warnings_app (evs evs' : list event) :
  warnings (evs ++ evs') = (warnings evs + warnings evs')%nat.
Proof. unfold warnings. rewrite filter_app, length_app. reflexivity. Qed.

Lemma scans_app (evs evs' : list event) :
  scans (evs ++ evs') = (scans evs + scans evs')%nat.
Proof. unfold scans. rewrite filter_app, length_app. reflexivity. Qed.

(** One turn of the [for] loop, with the number of its requests. *)
Lemma processSlice_trace (svc : Service) (apiKeys : list string) (i : nat)
    (wd : world) :
  exists wd' evs,
    processSlice svc apiKeys i wd = Ret tt wd'
    /\ allBlocks wd' = allBlocks wd ++ sliceOutcome svc (List.length apiKeys) i
    /\ events wd' = events wd ++ evs
    /\ requests evs
       = map (planned apiKeys i)
             (seq 0 (attemptsMade svc (List.length apiKeys) i))
    /\ warnings evs = failedAttempts svc (List.length apiKeys) i
    /\ scans evs = 0%nat
    /\ failedSlices evs
       = if sliceFails svc (List.length apiKeys) i then [(i + 1)%nat] else [].
Proof.
  set (K := List.length apiKeys).
  destruct (failoverLoop_spec svc apiKeys i (S K) 0 wd ltac:(lia) ltac:(fold K; lia))
    as (r & wd1 & Erun & evs & n & Hevs & Hreq & _ & Hfailed & Hscans & Hn & Hres).
  fold K in Erun, Hn, Hres. rewrite Nat.sub_0_r in Hres.
  unfold processSlice, bind. fold K. rewrite Erun.
  unfold sliceOutcome, sliceFails, attemptsMade, failedAttempts.
  destruct (firstSuccess svc i 0 K) as [[a' items]|] eqn:Efs.
  - destruct Hres as (-> & -> & Hwarn & Hblocks). cbn [fst negb]. unfold ret.
    exists wd1, evs.
    split; [reflexivity|]. split; [exact Hblocks|]. split; [exact Hevs|].
    split; [rewrite Hreq; f_equal; f_equal; lia|].
    split; [lia|]. split; [exact Hscans | exact Hfailed].
  - destruct Hres as (-> & -> & Hwarn & Hblocks). cbn [fst negb]. unfold emit.
    exists (logged (ConsoleError (i + 1)) wd1), (evs ++ [ConsoleError (i + 1)]).
    split; [reflexivity|]. split; [simpl; rewrite Hblocks, app_nil_r; reflexivity|].
    split; [simpl; rewrite Hevs, <- app_assoc; reflexivity|].
    split; [rewrite requests_app, Hreq; simpl; rewrite app_nil_r; reflexivity|].
    split; [rewrite warnings_app, Hwarn; unfold warnings;
            cbn [filter List.length]; lia|].
    split; [rewrite scans_app, Hscans; reflexivity|].
    rewrite failedSlices_app, Hfailed. reflexivity.
Qed.

Lemma forEach_processSlice_trace (svc : Service) (apiKeys : list string)
    (idxs : list nat) :
  forall wd,
  exists wd' evs,
    forEachM idxs (processSlice svc apiKeys) wd = Ret tt wd'
    /\ allBlocks wd'
       = allBlocks wd
         ++ List.concat (map (sliceOutcome svc (List.length apiKeys)) idxs)
    /\ events wd' = events wd ++ evs
    /\ requests evs
       = flat_map (fun i => map (planned apiKeys i)
                                (seq 0 (attemptsMade svc (List.length apiKeys) i)))
                  idxs
    /\ warnings evs
       = list_sum (map (failedAttempts svc (List.length apiKeys)) idxs)
    /\ scans evs = 0%nat
    /\ failedSlices evs
       = map (fun i => (i + 1)%nat)
             (filter (sliceFails svc (List.length apiKeys)) idxs).
Proof.
  set (K := List.length apiKeys).
  induction idxs as [|i idxs IH]; intros wd.
  - exists wd, []. simpl. rewrite !app_nil_r. repeat split; reflexivity.
  - destruct (processSlice_trace svc apiKeys i wd)
      as (wd1 & evs1 & Erun1 & Hb1 & He1 & Hreq1 & Hw1 & Hs1 & Hf1).
    destruct (IH wd1) as (wd' & evs2 & Erun2 & Hb2 & He2 & Hreq2 & Hw2 & Hs2 & Hf2).
    fold K in Hb1, Hreq1, Hw1, Hf1.
    exists wd', (evs1 ++ evs2).
    split; [cbn [forEachM]; unfold bind; rewrite Erun1; exact Erun2|].
    split; [rewrite Hb2, Hb1; simpl; rewrite <- app_assoc; reflexivity|].
    split; [rewrite He2, He1, <- app_assoc; reflexivity|].
    split; [rewrite requests_app, Hreq1, Hreq2; reflexivity|].
    split; [rewrite warnings_app, Hw1, Hw2; reflexivity|].
    split; [rewrite scans_app, Hs1, Hs2; reflexivity|].
    rewrite failedSlices_app, Hf1, Hf2. simpl.
    destruct (sliceFails svc K i); reflexivity.
Qed.

(** X6. The requests of the loop over the slices are exactly, slice after
    slice, the attempts 0, 1, ... up to the first that succeeds (all [K] when
    none does), each with its planned key; one warning is logged for each
    failed attempt, and the loop reads nothing from the canvas. *)
Theorem requests_of_a_run (svc : Service) (apiKeys : list string)
    (slices : list Slice) (wd : world) :
  exists wd' evs,
    processSlices svc apiKeys slices wd = Ret tt wd'
    /\ events wd' = events wd ++ evs
    /\ requests evs
       = flat_map (fun i => map (planned apiKeys i)
                                (seq 0 (attemptsMade svc (List.length apiKeys) i)))
                  (seq 0 (List.length slices))
    /\ warnings evs
       = list_sum (map (failedAttempts svc (List.length apiKeys))
                       (seq 0 (List.length slices)))
    /\ scans evs = 0%nat.
Proof.
  destruct (forEach_processSlice_trace svc apiKeys (seq 0 (List.length slices)) wd)
    as (wd' & evs & Erun & _ & Hevs & Hreq & Hwarn & Hscans & _).
  exists wd', evs. repeat split; assumption.
Qed.

(** ** The output pass *)

Lemma append_assoc (a b c : string) :
  ((a ++ b) ++ c)%string = (a ++ (b ++ c))%string.
Proof. induction a as [|x a IH]; [reflexivity|]. simpl. rewrite IH. reflexivity. Qed.

Lemma append_nil_r (a : string) : (a ++ EmptyString)%string = a.
Proof. induction a as [|x a IH]; [reflexivity|]. simpl. rewrite IH. reflexivity. Qed.

(** The output pass does not depend on the world and leaves it as it is. *)
Lemma formatBlock_lineOf (b : json) (wd : world) :
  formatBlock b wd = match lineOf b with
                     | Some line => Ret line wd
                     | None => Throw TypeError wd
                     end.
Proof.
  unfold lineOf, formatBlock, getProp, bind.
  destruct b; try reflexivity; unfold ret;
    destruct (orElse _ (JStr EmptyString)); try reflexivity;
    destruct (orElse _ (JStr (categoryValue SPEECH))); reflexivity.
Qed.

Lemma formatOutput_linesOf (blocks : list json) :
  forall (output : string) (wd : world),
    formatOutput blocks output wd
    = match linesOf blocks with
      | Some lines => Ret (output ++ joinLines lines)%string wd
      | None => Throw TypeError wd
      end.
Proof.
  induction blocks as [|b blocks IH]; intros output wd.
  - simpl. rewrite append_nil_r. reflexivity.
  - cbn [formatOutput linesOf]. unfold bind at 1. rewrite formatBlock_lineOf.
    destruct (lineOf b) as [line|]; [|reflexivity].
    rewrite IH. destruct (linesOf blocks) as [lines|]; [|reflexivity].
    cbn [joinLines fold_right]. rewrite append_assoc. reflexivity.
Qed.

Lemma linesOf_Forall2 (blocks : list json) :
  forall lines,
    linesOf blocks = Some lines ->
    Forall2 (fun b line => lineOf b = Some line) blocks lines.
Proof.
  induction blocks as [|b blocks IH]; intros lines; cbn [linesOf].
  - intros E. injection E as <-. constructor.
  - destruct (lineOf b) as [line|] eqn:Eb; [|discriminate].
    destruct (linesOf blocks) as [ls|]; [|discriminate].
    intros E. injection E as <-. constructor; [exact Eb | apply IH; reflexivity].
Qed.



(** The three stages of [processManhwa] on an image of positive width. *)
Lemma processManhwa_stages (svc : Service) (image : Canvas)
    (apiKeys : list string) (wd : world) :
  0 < width image -> 0 <= height image ->
  exists slices wd' evs,
    loadAndSlice image wd
    = Ret slices {| allBlocks := allBlocks wd;
                    events := events wd
                              ++ map (scanEvent image) (removelast slices) |}
    /\ allBlocks wd'
       = allBlocks wd
         ++ List.concat (map (sliceOutcome svc (List.length apiKeys))
                             (seq 0 (List.length slices)))
    /\ events wd'
       = (events wd ++ map (scanEvent image) (removelast slices)) ++ evs
    /\ requests evs
       = flat_map (fun i => map (planned apiKeys i)
                                (seq 0 (attemptsMade svc (List.length apiKeys) i)))
                  (seq 0 (List.length slices))
    /\ failedSlices evs
       = map (fun i => (i + 1)%nat)
             (filter (sliceFails svc (List.length apiKeys))
                     (seq 0 (List.length slices)))
    /\ processManhwa svc image apiKeys wd
       = formatOutput (allBlocks wd') EmptyString wd'.
Proof.
  intros Hw Hh.
  assert (Hslice : exists slices wd1,
             loadAndSlice image wd = Ret slices wd1
             /\ allBlocks wd1 = allBlocks wd
             /\ events wd1 = events wd
                             ++ map (scanEvent image) (removelast slices)).
  { unfold loadAndSlice.
    destruct (sliceLoop_trace image (fun _ => True)
                (scan_ok_weak_from image ltac:(lia))
                (S (Z.to_nat (height image))) 0 [] wd ltac:(lia) ltac:(lia))
      as (cuts & final & wd1 & Erun & Hblocks & Hevs & _ & Hfinal).
    exists (cuts ++ final), wd1. split; [exact Erun|]. split; [exact Hblocks|].
    rewrite removelast_cuts; [exact Hevs|].
    destruct Hfinal as [(-> & -> & _) | (s & -> & _)];
      [left; split; reflexivity | right; eexists; reflexivity]. }
  destruct Hslice as (slices & wd1 & Eslice & Hb1 & He1).
  destruct (forEach_processSlice_trace svc apiKeys (seq 0 (List.length slices)) wd1)
    as (wd' & evs & Erun & Hb2 & He2 & Hreq & _ & _ & Hfailed).
  exists slices, wd', evs.
  split.
  { rewrite Eslice. f_equal. destruct wd1 as [b1 e1]. simpl in *. subst. reflexivity. }
  split; [rewrite Hb2, Hb1; reflexivity|].
  split; [rewrite He2, He1; reflexivity|].
  split; [exact Hreq|]. split; [exact Hfailed|].
  unfold processManhwa, bind. rewrite Eslice.
  unfold processSlices. rewrite Erun. reflexivity.
Qed.

(** X7. The output of [processManhwa] on an image of positive width is made
    of one line for each record that the slices yield, slice after slice in
    the order of the slices and record after record within a slice, each
    slice counting with the first attempt that succeeds; it is a [TypeError]
    when one of these records has no line. *)
Theorem output_in_slice_order (svc : Service) (image : Canvas)
    (apiKeys : list string) :
  0 < width image -> 0 <= height image ->
  exists slices wd1 wd',
    loadAndSlice image initWorld = Ret slices wd1
    /\ allBlocks wd'
       = List.concat (map (sliceOutcome svc (List.length apiKeys))
                          (seq 0 (List.length slices)))
    /\ match linesOf (allBlocks wd') with
       | Some lines =>
           processManhwa svc image apiKeys initWorld = Ret (joinLines lines) wd'
           /\ Forall2 (fun b line => lineOf b = Some line) (allBlocks wd') lines
       | None =>
           processManhwa svc image apiKeys initWorld = Throw TypeError wd'
       end.
Proof.
  intros Hw Hh.
  destruct (processManhwa_stages svc image apiKeys initWorld Hw Hh)
    as (slices & wd' & evs & Eslice & Hblocks & _ & _ & _ & Erun).
  exists slices. eexists. exists wd'.
  split; [exact Eslice|]. split; [exact Hblocks|].
  rewrite Erun, formatOutput_linesOf.
  destruct (linesOf (allBlocks wd')) as [lines|] eqn:El; [|reflexivity].
  split; [reflexivity | apply linesOf_Forall2; exact El].
Qed.

Lemma output_in_slice_order_witness :
  exists slices wd1 wd',
    loadAndSlice (Samples.white 10 7000) initWorld = Ret slices wd1
    /\ allBlocks wd'
       = List.concat (map (sliceOutcome Samples.firstSliceFails
                                        (List.length Samples.keys2))
                          (seq 0 (List.length slices))).
Proof.
  destruct (output_in_slice_order Samples.firstSliceFails (Samples.white 10 7000)
              Samples.keys2)
    as (slices & wd1 & wd' & E & Hblocks & _); [reflexivity | discriminate |].
  exists slices, wd1, wd'. split; [exact E | exact Hblocks].
Defined.

(** ** Runs without a success *)

Lemma firstSuccess_all_fail (svc : Service) (i n : nat) :
  forall a,
    (forall b, (a <= b < a + n)%nat -> decode (svc i b) = None) ->
    firstSuccess svc i a n = None.
Proof.
  induction n as [|n IH]; intros a H; [reflexivity|].
  cbn [firstSuccess]. rewrite (H a ltac:(lia)). apply IH.
  intros b Hb. apply H. lia.
Qed.




(** ** Spreading the load *)

Lemma count_rotation_round (K k start : nat) :
  (k < K)%nat ->
  List.length (filter (fun i => (i mod K =? k)%nat) (seq (start * K) K)) = 1%nat.
Proof.
  intros Hk.
  assert (Hgen : forall n a, (a + n <= K)%nat ->
             List.length (filter (fun i => (i mod K =? k)%nat)
                                 (seq (start * K + a) n))
             = if ((a <=? k) && (k <? a + n))%nat then 1%nat else 0%nat).
  { induction n as [|n IH]; intros a Ha.
    - simpl. destruct (a <=? k)%nat eqn:E1; destruct (k <? a + 0)%nat eqn:E2;
        try reflexivity.
      apply Nat.leb_le in E1. apply Nat.ltb_lt in E2. lia.
    - cbn [seq filter].
      assert (Em : ((start * K + a) mod K = a)%nat).
      { rewrite Nat.add_comm, Nat.Div0.mod_add. apply Nat.mod_small. lia. }
      rewrite Em. replace (S (start * K + a)) with (start * K + S a)%nat by lia.
      specialize (IH (S a) ltac:(lia)).
      destruct (a =? k)%nat eqn:Eak.
      + apply Nat.eqb_eq in Eak. subst a. cbn [List.length]. rewrite IH.
        assert (E1 : (S k <=? k)%nat = false) by (apply Nat.leb_gt; lia).
        assert (E2 : (k <=? k)%nat = true) by (apply Nat.leb_le; lia).
        assert (E3 : (k <? k + S n)%nat = true) by (apply Nat.ltb_lt; lia).
        rewrite E1, E2, E3. reflexivity.
      + apply Nat.eqb_neq in Eak. rewrite IH.
        destruct (S a <=? k)%nat eqn:E1; destruct (a <=? k)%nat eqn:E2;
          destruct (k <? S a + n)%nat eqn:E3; destruct (k <? a + S n)%nat eqn:E4;
          try reflexivity;
          repeat match goal with
                 | H : (_ <=? _)%nat = true |- _ => apply Nat.leb_le in H
                 | H : (_ <=? _)%nat = false |- _ => apply Nat.leb_gt in H
                 | H : (_ <? _)%nat = true |- _ => apply Nat.ltb_lt in H
                 | H : (_ <? _)%nat = false |- _ => apply Nat.ltb_ge in H
                 end; lia. }
  specialize (Hgen K 0%nat ltac:(lia)). rewrite Nat.add_0_r in Hgen.
  rewrite Hgen.
  assert (E1 : (0 <=? k)%nat = true) by (apply Nat.leb_le; lia).
  assert (E2 : (k <? 0 + K)%nat = true) by (apply Nat.ltb_lt; lia).
  rewrite E1, E2. reflexivity.
Qed.

Lemma count_rotation (K k q : nat) :
  (k < K)%nat ->
  List.length (filter (fun i => (i mod K =? k)%nat) (seq 0 (q * K))) = q.
Proof.
  intros Hk. induction q as [|q IH]; [reflexivity|].
  replace (S q * K)%nat with (q * K + K)%nat by lia.
  rewrite seq_app, filter_app, length_app, IH. cbn [Nat.add].
  rewrite (count_rotation_round K k q Hk). lia.
Qed.

(** X9. When the first attempt succeeds for every slice, a run over
    [q * K] slices and a pool of [K] keys makes one request for each slice
    and exactly [q] requests with each key. *)
Theorem load_is_spread_evenly (svc : Service) (apiKeys : list string)
    (slices : list Slice) (q k : nat) (wd : world) :
  (forall i, exists items, decode (svc i 0%nat) = Some items) ->
  List.length slices = (q * List.length apiKeys)%nat ->
  (k < List.length apiKeys)%nat ->
  exists wd' evs,
    processSlices svc apiKeys slices wd = Ret tt wd'
    /\ events wd' = events wd ++ evs
    /\ List.length (requests evs) = List.length slices
    /\ requestsWithKey k evs = q.
Proof.
  intros Hup Hn Hk. set (K := List.length apiKeys) in *.
  destruct (forEach_processSlice_trace svc apiKeys (seq 0 (List.length slices)) wd)
    as (wd' & evs & Erun & _ & Hevs & Hreq & _).
  fold K in Hreq.
  assert (Hone : forall i, attemptsMade svc K i = 1%nat).
  { intros i. unfold attemptsMade. destruct K as [|K']; [lia|].
    cbn [firstSuccess]. destruct (Hup i) as [items ->]. reflexivity. }
  assert (Hreq' : requests evs
                  = map (fun i => planned apiKeys i 0) (seq 0 (List.length slices))).
  { rewrite Hreq. generalize (seq 0 (List.length slices)). intros l.
    induction l as [|i l IHl]; [reflexivity|].
    cbn [flat_map map]. rewrite Hone, IHl. reflexivity. }
  exists wd', evs. split; [exact Erun|]. split; [exact Hevs|].
  split; [rewrite Hreq', length_map, length_seq; reflexivity|].
  assert (Hcount : forall l,
             List.length (filter (fun r : nat * nat * nat * option string =>
                                    (snd (fst r) =? k)%nat)
                                 (map (fun i => planned apiKeys i 0) l))
             = List.length (filter (fun i => (i mod K =? k)%nat) l)).
  { induction l as [|i l IHl]; [reflexivity|].
    cbn [map filter]. unfold planned at 1. cbn [fst snd]. fold K.
    rewrite Nat.add_0_r. destruct (i mod K =? k)%nat; cbn [List.length];
      rewrite IHl; reflexivity. }
  unfold requestsWithKey. rewrite Hreq', Hn, Hcount.
  apply count_rotation. exact Hk.
Qed.

Lemma load_is_spread_evenly_witness :
  exists wd' evs,
    processSlices Samples.up Samples.keys2
                  [mkSlice 0 2996; mkSlice 2996 2996; mkSlice 5992 2996;
                   mkSlice 8988 1012] initWorld = Ret tt wd'
    /\ events wd' = events initWorld ++ evs
    /\ List.length (requests evs) = 4%nat
    /\ requestsWithKey 1 evs = 2%nat.
Proof.
  apply (load_is_spread_evenly Samples.up Samples.keys2
           [mkSlice 0 2996; mkSlice 2996 2996; mkSlice 5992 2996;
            mkSlice 8988 1012] 2 1 initWorld).
  - intros i. eexists. reflexivity.
  - reflexivity.
  - simpl. lia.
Defined.

(** ** Blocks without a line *)

(** X10. The output pass has no line for a block, and throws, exactly when
    the block is [null] or an object whose [text] is truthy and not a
    string; every other block (a record with a string or no text, but also a
    bare string, number or array) gets a line. *)
Theorem block_without_line (b : json) :
  lineOf b = None
  <-> (b = JNull
       \/ exists members v,
           b = JObj members /\ lookup "text" members = Some v
           /\ truthy (Some v) = true /\ forall t, v <> JStr t).
Proof.
  unfold lineOf, formatBlock, getProp, bind, ret, throw. split.
  - destruct b as [| | | | |members]; try (intros _; left; reflexivity);
      try discriminate.
    destruct (lookup "text" members) as [v|] eqn:Et.
    + unfold orElse at 1. destruct (truthy (Some v)) eqn:Etruthy.
      * destruct v; try (intros _; right; exists members; eexists;
                         repeat split; try eassumption; discriminate).
        destruct (orElse (lookup "category" members) _); discriminate.
      * destruct (orElse (lookup "category" members) _); discriminate.
    + cbn [orElse]. destruct (orElse (lookup "category" members) _); discriminate.
  - intros [-> | (members & v & -> & Et & Etruthy & Hnot)]; [reflexivity|].
    rewrite Et. unfold orElse at 1. rewrite Etruthy.
    destruct v; try reflexivity. exfalso. exact (Hnot s eq_refl).
Qed.

Example blocks_and_lines :
  lineOf JNull = None
  /\ lineOf (JObj [("text", JNum 5 0)]) = None
  /\ lineOf (JObj [("text", JNum 0 0)]) = Some (categoryPrefix SPEECH ++ newline)%string
  /\ lineOf (JStr "hi") = Some (categoryPrefix SPEECH ++ newline)%string
  /\ lineOf (JObj [("category", JStr "box")]) = Some ("[]: " ++ newline)%string.
Proof. repeat split; reflexivity. Qed.

(** ** Code fences *)

Lemma removeAll_no_backtick (s tail : string) :
  noBacktick s = true ->
  JsString.removeAll ["```json"; "```"] 0 (s ++ tail)
  = (s ++ JsString.removeAll ["```json"; "```"] 0 tail)%string.
Proof.
  induction s as [|c s IH]; intros H; [reflexivity|].
  cbn [noBacktick] in H. apply andb_true_iff in H. destruct H as [Hc Hs].
  apply negb_true_iff in Hc. apply Ascii.eqb_neq in Hc.
  cbn [append JsString.removeAll].
  assert (E : JsString.matchAny ["```json"; "```"] (String c (s ++ tail)) = None).
  { unfold JsString.matchAny. cbn [String.prefix].
    destruct (ascii_dec "`" c) as [E | _]; [symmetry in E; contradiction|].
    reflexivity. }
  rewrite E, (IH Hs). reflexivity.
Qed.

Lemma prefix_empty (s : string) : String.prefix EmptyString s = true.
Proof. destruct s; reflexivity. Qed.

Lemma prefix_cons_same (a : ascii) (p x : string) :
  String.prefix (String a p) (String a x) = String.prefix p x.
Proof.
  cbn [String.prefix]. destruct (ascii_dec a a); [reflexivity | congruence].
Qed.

Lemma prefix_cons_diff (a b : ascii) (p x : string) :
  a <> b -> String.prefix (String a p) (String b x) = false.
Proof.
  intros H. cbn [String.prefix].
  destruct (ascii_dec a b); [contradiction | reflexivity].
Qed.

Lemma removeAll_match (pats : list string) (c : ascii) (r : string) (n : nat) :
  JsString.matchAny pats (String c r) = Some (S n) ->
  JsString.removeAll pats 0 (String c r) = JsString.removeAll pats n r.
Proof. intros H. cbn [JsString.removeAll]. rewrite H. reflexivity. Qed.

Lemma removeAll_json_fence (x : string) :
  JsString.removeAll ["```json"; "```"] 0 ("```json" ++ x) 
  = JsString.removeAll ["```json"; "```"] 0 x.
Proof.
  cbn [append].
  rewrite (removeAll_match ["```json"; "```"] _ _ 6); [reflexivity|].
  unfold JsString.matchAny.
  rewrite !prefix_cons_same, prefix_empty. reflexivity.
Qed.

Lemma removeAll_plain_fence (x : string) :
  String.prefix "j" x = false ->
  JsString.removeAll ["```json"; "```"] 0 ("```" ++ x)
  = JsString.removeAll ["```json"; "```"] 0 x.
Proof.
  intros Hj. cbn [append].
  rewrite (removeAll_match ["```json"; "```"] _ _ 2); [reflexivity|].
  unfold JsString.matchAny.
  rewrite !prefix_cons_same.
  assert (E : String.prefix "json" x = false).
  { destruct x as [|b x']; [reflexivity|].
    destruct (ascii_dec "j" b) as [<- | Hne].
    - rewrite prefix_cons_same, prefix_empty in Hj. discriminate Hj.
    - apply prefix_cons_diff. exact Hne. }
  rewrite E, prefix_empty. reflexivity.
Qed.

(** X11. A reply whose text holds no backtick is decoded the same bare or
    wrapped in a [```json ... ```] fence, and also in a plain [``` ... ```]
    fence unless the text starts with the letter j. *)
Theorem fences_are_ignored (s : string) :
  noBacktick s = true ->
  decode (Resolves (Some ("```json" ++ s ++ "```")%string))
  = decode (Resolves (Some s))
  /\ (String.prefix "j" s = false ->
      decode (Resolves (Some ("```" ++ s ++ "```")%string))
      = decode (Resolves (Some s))).
Proof.
  intros H.
  assert (E0 : JsString.removeAll ["```json"; "```"] 0 s = s).
  { rewrite <- (append_nil_r s) at 1. rewrite removeAll_no_backtick by exact H.
    apply append_nil_r. }
  assert (E1 : JsString.removeAll ["```json"; "```"] 0 (s ++ "```") = s).
  { rewrite removeAll_no_backtick by exact H. apply append_nil_r. }
  split.
  - unfold decode, jsonStrOf. rewrite removeAll_json_fence, E1, E0. reflexivity.
  - intros Hj. unfold decode, jsonStrOf.
    rewrite removeAll_plain_fence, E1, E0; [reflexivity|].
    destruct s as [|c r]; [reflexivity|]. cbn [append].
    destruct (ascii_dec "j" c) as [<- | Hne].
    + rewrite prefix_cons_same, prefix_empty in Hj. discriminate Hj.
    + apply prefix_cons_diff. exact Hne.
Qed.

Lemma fences_are_ignored_witness :
  decode (Resolves (Some ("```json" ++ "[1, 2]" ++ "```")%string))
  = decode (Resolves (Some "[1, 2]")).
Proof. exact (proj1 (fences_are_ignored "[1, 2]" eq_refl)). Defined.

Example plain_fence_before_json :
  JsString.removeAll ["```json"; "```"] 0 ("```" ++ "json" ++ "```") = EmptyString.
Proof. reflexivity. Qed.

(** ** The pool of keys of the bot *)

Lemma split_nosep (sep : ascii) (k : string) :
  ~ In sep (chars k) -> Bot.split sep k = [k].
Proof.
  induction k as [|c k IH]; intros H; [reflexivity|].
  cbn [Bot.split]. unfold chars in *. cbn [list_ascii_of_string] in H.
  destruct (Ascii.eqb_spec c sep) as [-> | Hne]; [exfalso; apply H; left; reflexivity|].
  rewrite IH by (intros Hin; apply H; right; exact Hin). reflexivity.
Qed.

Lemma split_nosep_app (sep : ascii) (k r : string) :
  ~ In sep (chars k) ->
  Bot.split sep (k ++ String sep r) = k :: Bot.split sep r.
Proof.
  induction k as [|c k IH]; intros H.
  - cbn [append Bot.split]. rewrite Ascii.eqb_refl. reflexivity.
  - cbn [append Bot.split]. unfold chars in *. cbn [list_ascii_of_string] in H.
    destruct (Ascii.eqb_spec c sep) as [-> | Hne];
      [exfalso; apply H; left; reflexivity|].
    rewrite IH by (intros Hin; apply H; right; exact Hin). reflexivity.
Qed.

Lemma split_concat (sep : ascii) (keys : list string) :
  keys <> [] ->
  Forall (fun k => ~ In sep (chars k)) keys ->
  Bot.split sep (String.concat (String sep EmptyString) keys) = keys.
Proof.
  induction keys as [|k keys IH]; intros Hne Hall; [congruence|].
  inversion Hall as [|? ? Hk Hall']; subst.
  destruct keys as [|k' keys].
  - cbn [String.concat]. apply split_nosep. exact Hk.
  - change (String.concat (String sep EmptyString) (k :: k' :: keys))
      with (k ++ String sep (String.concat (String sep EmptyString) (k' :: keys)))%string.
    rewrite split_nosep_app by exact Hk.
    rewrite IH by (discriminate || exact Hall'). reflexivity.
Qed.

(** X12. Writing a non-empty list of keys, each non-empty, without a comma
    and without white space at its ends, as one comma-separated value of
    [GEMINI_API_KEYS] gives back exactly this list as the pool, in order. *)
Theorem keys_round_trip (keys : list string) :
  keys <> [] ->
  Forall (fun k => k <> EmptyString /\ ~ In ","%char (chars k)
                   /\ JsString.trim k = k) keys ->
  Bot.parseKeys (Some (String.concat "," keys)) = keys.
Proof.
  intros Hne Hall. unfold Bot.parseKeys.
  assert (Hfalsy : Bot.falsy (Some (String.concat "," keys)) = false).
  { unfold Bot.falsy. destruct keys as [|k keys]; [congruence|].
    inversion Hall as [|? ? (Hk & _ & _) _]; subst.
    destruct k as [|c k]; [congruence|].
    destruct keys; reflexivity. }
  rewrite Hfalsy, split_concat.
  - clear Hne Hfalsy. induction Hall as [|k keys (Hk & _ & Htrim) _ IH];
      [reflexivity|].
    cbn [map filter]. rewrite Htrim, IH.
    destruct k as [|c k]; [congruence | reflexivity].
  - exact Hne.
  - eapply Forall_impl; [|exact Hall]. cbv beta. intros k (_ & H & _). exact H.
Qed.

Lemma keys_round_trip_witness :
  Bot.parseKeys (Some "key-AAAA,key-BBBB") = Samples.keys2.
Proof.
  apply (keys_round_trip Samples.keys2); [discriminate|].
  repeat constructor; try discriminate; try reflexivity;
    (intros H; vm_compute in H; intuition discriminate).
Defined.

Lemma chars_rev (s : string) : chars (JsString.rev s) = List.rev (chars s).
Proof.
  unfold chars, JsString.rev. apply list_ascii_of_string_of_list_ascii.
Qed.

Lemma dropWhileAny_chars (pats : list string) (s : string) :
  forall skip c,
    In c (chars (JsString.dropWhileAny pats skip s)) -> In c (chars s).
Proof.
  induction s as [|a s IH]; intros skip c H; [exact H|].
  cbn [JsString.dropWhileAny] in H.
  destruct skip as [|k].
  - destruct (JsString.matchAny pats (String a s)) as [[|n]|]; try exact H.
    right. exact (IH n c H).
  - right. exact (IH k c H).
Qed.

Lemma trim_chars (s : string) (c : ascii) :
  In c (chars (JsString.trim s)) -> In c (chars s).
Proof.
  unfold JsString.trim, JsString.trimEnd, JsString.trimStart. intros H.
  rewrite chars_rev in H. apply in_rev in H.
  apply dropWhileAny_chars in H. rewrite chars_rev in H. apply in_rev in H.
  apply dropWhileAny_chars in H. exact H.
Qed.

Lemma split_chars (sep : ascii) (s : string) :
  forall p, In p (Bot.split sep s) -> ~ In sep (chars p).
Proof.
  induction s as [|c s IH]; intros p Hp.
  - destruct Hp as [<- | []]. intros [].
  - cbn [Bot.split] in Hp. destruct (Ascii.eqb_spec c sep) as [-> | Hne].
    + destruct Hp as [<- | Hp]; [intros [] | exact (IH p Hp)].
    + destruct (Bot.split sep s) as [|first rest] eqn:E.
      * destruct Hp as [<- | []]. intros [H | []]. congruence.
      * destruct Hp as [<- | Hp].
        -- intros [H | H]; [congruence|]. exact (IH first (or_introl eq_refl) H).
        -- apply IH. right. exact Hp.
Qed.

Lemma split_chars_of (sep : ascii) (s : string) :
  forall p c, In p (Bot.split sep s) -> In c (chars p) -> In c (chars s).
Proof.
  induction s as [|a s IH]; intros p c Hp Hc.
  - destruct Hp as [<- | []]. exact Hc.
  - cbn [Bot.split] in Hp. unfold chars in *. cbn [list_ascii_of_string].
    destruct (Ascii.eqb a sep).
    + destruct Hp as [<- | Hp]; [destruct Hc | right; exact (IH p c Hp Hc)].
    + destruct (Bot.split sep s) as [|first rest] eqn:E.
      * destruct Hp as [<- | []]. destruct Hc as [<- | []]. left. reflexivity.
      * destruct Hp as [<- | Hp].
        -- destruct Hc as [<- | Hc]; [left; reflexivity|].
           right. exact (IH first c (or_introl eq_refl) Hc).
        -- right. apply (IH p c); [right; exact Hp | exact Hc].
Qed.

Lemma whiteSpace_head :
  JsString.whiteSpace
  = String "009" EmptyString :: String "010" EmptyString
    :: String "011" EmptyString :: String "012" EmptyString
    :: String "013" EmptyString :: String " " EmptyString
    :: skipn 6 JsString.whiteSpace.
Proof. vm_compute. reflexivity. Qed.

(** [trim] removes a leading ASCII white space character. *)
Lemma matchAny_asciiSpace (c : ascii) (r : string) :
  In c asciiSpaces ->
  JsString.matchAny JsString.whiteSpace (String c r) = Some 1%nat.
Proof.
  intros Hc. rewrite whiteSpace_head.
  generalize (skipn 6 JsString.whiteSpace) as rest. intros rest.
  unfold asciiSpaces in Hc. cbn [In] in Hc.
  destruct Hc as [<- | [<- | [<- | [<- | [<- | [<- | []]]]]]];
    cbn [JsString.matchAny];
    rewrite ?prefix_cons_diff by discriminate;
    rewrite prefix_cons_same, prefix_empty; reflexivity.
Qed.

Lemma trim_blank (p : string) :
  Forall (fun c => In c asciiSpaces) (chars p) ->
  JsString.trim p = EmptyString.
Proof.
  intros H.
  assert (E : JsString.trimStart p = EmptyString).
  { unfold JsString.trimStart, chars in *.
    induction p as [|c p IH]; [reflexivity|].
    cbn [list_ascii_of_string] in H. inversion H as [|? ? Hc Hp]; subst.
    cbn [JsString.dropWhileAny]. rewrite (matchAny_asciiSpace c p Hc).
    exact (IH Hp). }
  unfold JsString.trim. rewrite E. reflexivity.
Qed.

(** A value made of commas and ASCII white space only holds no key. *)
Lemma parseKeys_blank (s : string) :
  (forall c, In c (chars s) -> c = ","%char \/ In c asciiSpaces) ->
  Bot.parseKeys (Some s) = [].
Proof.
  intros H. unfold Bot.parseKeys.
  set (ks := if Bot.falsy (Some s) then EmptyString
             else match Some s with Some s0 => s0 | None => EmptyString end).
  assert (Hks : forall c, In c (chars ks) -> c = ","%char \/ In c asciiSpaces).
  { unfold ks. destruct (Bot.falsy (Some s)); [intros c [] | exact H]. }
  clearbody ks.
  assert (Hpieces : forall p, In p (Bot.split "," ks) ->
                              JsString.trim p = EmptyString).
  { intros p Hp. apply trim_blank. apply Forall_forall. intros c Hc.
    destruct (Hks c (split_chars_of _ _ p c Hp Hc)) as [-> | Hsp]; [|exact Hsp].
    exfalso. exact (split_chars _ _ p Hp Hc). }
  induction (Bot.split "," ks) as [|p pieces IH]; [reflexivity|].
  cbn [map filter]. rewrite (Hpieces p (or_introl eq_refl)).
  cbn [String.length Nat.ltb Nat.leb]. apply IH.
  intros q Hq. apply Hpieces. right. exact Hq.
Qed.

(** X13. The bot gets past its start-up check only with a token, a client id
    and a pool that is not empty; the pool is then the trimmed, non-empty
    entries of [GEMINI_API_KEYS], none of which contains a comma.  Without
    the variable, or with a value made only of commas and ASCII white space,
    the pool is empty and the bot exits. *)
Theorem startup_pool (TOKEN CLIENT_ID keysEnv : option string) :
  (forall keys,
      Bot.startup TOKEN CLIENT_ID keysEnv = Some keys ->
      keys = Bot.parseKeys keysEnv
      /\ (1 <= List.length keys)%nat
      /\ Bot.falsy TOKEN = false /\ Bot.falsy CLIENT_ID = false
      /\ Forall (fun k => k <> EmptyString /\ ~ In ","%char (chars k)) keys)
  /\ (Bot.parseKeys keysEnv = [] -> Bot.startup TOKEN CLIENT_ID keysEnv = None)
  /\ Bot.parseKeys None = []
  /\ (forall s,
        (forall c, In c (chars s) -> c = ","%char \/ In c asciiSpaces) ->
        Bot.parseKeys (Some s) = []
        /\ Bot.startup TOKEN CLIENT_ID (Some s) = None).
Proof.
  assert (Hexit : forall env, Bot.parseKeys env = [] ->
                              Bot.startup TOKEN CLIENT_ID env = None).
  { intros env E. unfold Bot.startup. rewrite E. cbn [List.length Nat.eqb].
    rewrite !orb_true_r. reflexivity. }
  split; [|split; [|split]].
  - intros keys. unfold Bot.startup.
    destruct (Bot.falsy TOKEN); [discriminate|].
    destruct (Bot.falsy CLIENT_ID); [discriminate|].
    destruct (List.length (Bot.parseKeys keysEnv) =? 0)%nat eqn:E; [discriminate|].
    cbn [orb]. intros H. injection H as <-. apply Nat.eqb_neq in E.
    split; [reflexivity|]. split; [lia|]. split; [reflexivity|].
    split; [reflexivity|].
    unfold Bot.parseKeys. apply Forall_forall. intros k Hk.
    apply filter_In in Hk. destruct Hk as [Hk Hlen].
    split; [intros ->; discriminate Hlen|].
    apply in_map_iff in Hk. destruct Hk as (p & <- & Hp).
    intros Hin. apply trim_chars in Hin. exact (split_chars _ _ p Hp Hin).
  - apply Hexit.
  - reflexivity.
  - intros s Hs. pose proof (parseKeys_blank s Hs) as E.
    split; [exact E | apply Hexit; exact E].
Qed.

Lemma startup_pool_witness :
  Bot.startup (Some "token") (Some "client") (Some " key-AAAA , key-BBBB,,")
  = Some Samples.keys2
  /\ (1 <= List.length Samples.keys2)%nat
  /\ Bot.startup (Some "token") (Some "client") (Some " , ,,") = None.
Proof.
  split; [reflexivity|]. split.
  - apply (proj1 (startup_pool (Some "token") (Some "client")
                    (Some " key-AAAA , key-BBBB,,")) Samples.keys2 eq_refl).
  - apply (proj2 (proj2 (proj2 (startup_pool (Some "token") (Some "client") None)))
                 " , ,,").
    intros c Hc. vm_compute in Hc.
    repeat (destruct Hc as [<- | Hc];
            [first [left; reflexivity | right; left; reflexivity]|]).
    destruct Hc.
Defined.

(** ** The replies of the bot *)

(** The reply to [/ocr] with an image that loads. *)
Lemma onInteraction_ocr (load : Bot.Loader) (svc : Service)
    (keys : list string) (att : Bot.Attachment) (ct : string) (img : Canvas) :
  Bot.contentType att = Some ct -> String.prefix "image/" ct = true ->
  load (Bot.attUrl att) = Some img ->
  0 < width img -> 0 <= height img ->
  exists slices wd1,
    loadAndSlice img initWorld = Ret slices wd1
    /\ Bot.onInteraction load svc keys (Bot.ChatInputCommand "ocr" (Some att))
       = Some
           match linesOf (List.concat (map (sliceOutcome svc (List.length keys))
                                           (seq 0 (List.length slices)))) with
           | None => Bot.SystemError
           | Some lines =>
               if String.eqb (JsString.trim (joinLines lines)) EmptyString
               then Bot.NoTextFound
               else Bot.AnalysisComplete (Bot.attName att ++ ".txt")
                                         (joinLines lines)
           end.
Proof.
  intros Hct Hprefix Hload Hw Hh.
  destruct (processManhwa_stages svc img keys initWorld Hw Hh)
    as (slices & wd' & evs & Eslice & Hblocks & _ & _ & _ & Erun).
  exists slices. eexists. split; [exact Eslice|].
  cbn [Bot.onInteraction]. rewrite String.eqb_refl, Hct, Hprefix. cbn [negb].
  rewrite Hload, Erun, formatOutput_linesOf, Hblocks. cbn [allBlocks initWorld app].
  destruct (linesOf _) as [lines|]; [|reflexivity].
  cbn [append]. destruct (String.eqb _ _); reflexivity.
Qed.

(** X14. For the [/ocr] command with an attachment of an image type whose
    image loads with a positive width, the bot always answers: with
    "System Error" exactly when one of the records that the slices yield has
    no line; otherwise with "No text found" when the output is blank, and
    else with the file [<name>.txt] holding exactly the output, one line for
    each record in slice order. *)
Theorem ocr_reply (load : Bot.Loader) (svc : Service)
    (keys : list string) (att : Bot.Attachment) (ct : string) (img : Canvas) :
  Bot.contentType att = Some ct -> String.prefix "image/" ct = true ->
  load (Bot.attUrl att) = Some img ->
  0 < width img -> 0 <= height img ->
  exists slices wd1,
    loadAndSlice img initWorld = Ret slices wd1
    /\ Bot.onInteraction load svc keys (Bot.ChatInputCommand "ocr" (Some att))
       = Some
           match linesOf (List.concat (map (sliceOutcome svc (List.length keys))
                                           (seq 0 (List.length slices)))) with
           | None => Bot.SystemError
           | Some lines =>
               if String.eqb (JsString.trim (joinLines lines)) EmptyString
               then Bot.NoTextFound
               else Bot.AnalysisComplete (Bot.attName att ++ ".txt")
                                         (joinLines lines)
           end.
Proof.
  intros Hct Hprefix Hload Hw Hh.
  destruct (onInteraction_ocr load svc keys att ct img Hct Hprefix Hload Hw Hh)
    as (slices & wd1 & Eslice & Ereply).
  exists slices, wd1. split; [exact Eslice | exact Ereply].
Qed.

Lemma ocr_reply_witness :
  Bot.onInteraction (fun _ => Some (Samples.white 10 100)) Samples.up
                    Samples.keys2
                    (Bot.ChatInputCommand "ocr" (Some Samples.pngAttachment))
  = Some (Bot.AnalysisComplete "page.txt" ("[]: hi" ++ newline)%string).
Proof.
  destruct (ocr_reply (fun _ => Some (Samples.white 10 100)) Samples.up
              Samples.keys2 Samples.pngAttachment "image/png"
              (Samples.white 10 100))
    as (slices & wd1 & Eslice & Ereply);
    [reflexivity | reflexivity | reflexivity | reflexivity | discriminate |].
  assert (E : loadAndSlice (Samples.white 10 100) initWorld
              = Ret [mkSlice 0 100] initWorld) by reflexivity.
  rewrite E in Eslice. injection Eslice as <- _.
  exact Ereply.
Defined.

(** X15. When no attempt succeeds for any slice, the user of [/ocr] is told
    "No text found", not "System Error": the failures of the service stay
    inside [processManhwa]. *)
Theorem service_down_no_text_found (load : Bot.Loader) (svc : Service)
    (keys : list string) (att : Bot.Attachment) (ct : string) (img : Canvas) :
  Bot.contentType att = Some ct -> String.prefix "image/" ct = true ->
  load (Bot.attUrl att) = Some img ->
  0 < width img -> 0 <= height img ->
  (forall i a, (a < List.length keys)%nat -> decode (svc i a) = None) ->
  Bot.onInteraction load svc keys (Bot.ChatInputCommand "ocr" (Some att))
  = Some Bot.NoTextFound.
Proof.
  intros Hct Hprefix Hload Hw Hh Hdown.
  destruct (onInteraction_ocr load svc keys att ct img Hct Hprefix Hload Hw Hh)
    as (slices & wd1 & _ & ->).
  assert (Hnone : forall i, firstSuccess svc i 0 (List.length keys) = None).
  { intros i. apply firstSuccess_all_fail. intros b Hb. apply Hdown. lia. }
  assert (Hall0 : forall l,
             List.concat (map (sliceOutcome svc (List.length keys)) l) = []).
  { induction l as [|i l IHl]; [reflexivity|].
    cbn [map List.concat]. unfold sliceOutcome at 1. rewrite Hnone. exact IHl. }
  rewrite Hall0. reflexivity.
Qed.

Lemma service_down_no_text_found_witness :
  Bot.onInteraction (fun _ => Some (Samples.white 10 7000)) Samples.down
                    Samples.keys2
                    (Bot.ChatInputCommand "ocr" (Some Samples.pngAttachment))
  = Some Bot.NoTextFound.
Proof.
  apply (service_down_no_text_found (fun _ => Some (Samples.white 10 7000))
           Samples.down Samples.keys2 Samples.pngAttachment "image/png"
           (Samples.white 10 7000));
    try reflexivity; try discriminate.
Defined.

Example replies_without_a_run :
  Bot.onInteraction (fun _ => None) Samples.up Samples.keys2
                    (Bot.ChatInputCommand "ocr" (Some Samples.pngAttachment))
  = Some Bot.SystemError
  /\ Bot.onInteraction (fun _ => None) Samples.up Samples.keys2
                       (Bot.ChatInputCommand "ocr" None)
     = Some Bot.InvalidFile
  /\ Bot.onInteraction (fun _ => None) Samples.up Samples.keys2
                       (Bot.ChatInputCommand "help" None)
     = Some Bot.NoReply.
Proof. repeat split; reflexivity. Qed.

(** ** What the warnings show of a key *)

Lemma lastUnits_length (n : nat) (us : list N) :
  (List.length (JsString.lastUnits n us) <= n)%nat.
Proof. unfold JsString.lastUnits. rewrite length_skipn. lia. Qed.

Lemma lastUnits_In (n : nat) (us : list N) (u : N) :
  In u (JsString.lastUnits n us) -> In u us.
Proof.
  unfold JsString.lastUnits. intros H.
  rewrite <- (firstn_skipn (List.length us - n) us).
  apply in_or_app. right. exact H.
Qed.

(** A string of ASCII characters has one code unit for each byte. *)
Lemma toUnits_ascii (s : string) :
  Forall (fun c => (N_of_ascii c < 128)%N) (chars s) ->
  JsString.toUnits s = map N_of_ascii (chars s).
Proof.
  unfold JsString.toUnits, chars.
  induction s as [|c s IH]; intros H; [reflexivity|].
  cbn [list_ascii_of_string] in H. inversion H as [|? ? Hc Hs]; subst.
  cbn [JsString.codePoints list_ascii_of_string map].
  apply N.ltb_lt in Hc. rewrite Hc. cbn [flat_map].
  assert (E : (N_of_ascii c <? 65536)%N = true)
    by (apply N.ltb_lt; apply N.ltb_lt in Hc; lia).
  rewrite E, (IH Hs). reflexivity.
Qed.

Lemma fromUnits_ascii (l : list ascii) :
  Forall (fun c => (N_of_ascii c < 128)%N) l ->
  JsString.fromUnits (map N_of_ascii l) = string_of_list_ascii l.
Proof.
  induction l as [|c l IH]; intros H; [reflexivity|].
  inversion H as [|? ? Hc Hl]; subst.
  assert (Eu : JsString.utf8 (N_of_ascii c) = String c EmptyString).
  { unfold JsString.utf8, JsString.byte_of.
    apply N.ltb_lt in Hc. rewrite Hc, ascii_N_embedding. reflexivity. }
  assert (Eh : JsString.isHighSurrogate (N_of_ascii c) = false).
  { unfold JsString.isHighSurrogate. apply andb_false_iff. left.
    apply N.leb_gt. lia. }
  cbn [map JsString.fromUnits]. specialize (IH Hl).
  destruct l as [|c' l].
  - rewrite Eu. reflexivity.
  - cbn [map] in IH |- *. rewrite Eh. cbn [andb]. rewrite Eu, IH. reflexivity.
Qed.

Lemma sliceLast_ascii (n : nat) (s : string) :
  Forall (fun c => (N_of_ascii c < 128)%N) (chars s) ->
  JsString.sliceLast n s
  = string_of_list_ascii (skipn (List.length (chars s) - n) (chars s)).
Proof.
  intros H. unfold JsString.sliceLast, JsString.lastUnits.
  rewrite (toUnits_ascii s H), length_map, skipn_map.
  apply fromUnits_ascii.
  rewrite <- (firstn_skipn (List.length (chars s) - n) (chars s)) in H.
  apply Forall_app in H. exact (proj2 H).
Qed.

Lemma string_of_list_length (l : list ascii) :
  String.length (string_of_list_ascii l) = List.length l.
Proof. induction l as [|c l IH]; [reflexivity|]. simpl. rewrite IH. reflexivity. Qed.

Lemma failoverLoop_warnings (svc : Service) (apiKeys : list string) (i : nat)
    (fuel : nat) :
  forall a wd,
    (a <= List.length apiKeys)%nat ->
    (List.length apiKeys - a < fuel)%nat ->
    exists r wd' evs,
      failoverLoop fuel svc apiKeys i false a wd = Ret r wd'
      /\ events wd' = events wd ++ evs
      /\ Forall (warningOf apiKeys i) evs
      /\ failedSlices evs = [].
Proof.
  set (K := List.length apiKeys).
  induction fuel as [|fuel IH]; intros a wd Ha Hfuel; [lia|].
  destruct (Nat.eq_dec a K) as [-> | Hlt].
  - exists (false, K), wd, []. split; [apply failoverLoop_exhausted; fold K; lia|].
    split; [rewrite app_nil_r; reflexivity|]. split; [constructor | reflexivity].
  - assert (Ha' : (a < K)%nat) by lia.
    destruct (decode (svc i a)) as [items|] eqn:Hd.
    + destruct fuel as [|fuel]; [lia|].
      destruct (failoverLoop_ok_step svc apiKeys fuel i a items wd Ha' Hd)
        as (wd' & Erun & _ & Hevs).
      exists (true, a), wd'. eexists. split; [exact Erun|]. split; [exact Hevs|].
      split; [repeat constructor | reflexivity].
    + destruct (failoverLoop_fail_step svc apiKeys fuel i a wd Ha' Hd)
        as (key & Hkey & Estep).
      set (wd1 := logged _ (logged _ wd)) in Estep.
      destruct (IH (S a) wd1 ltac:(lia) ltac:(lia))
        as (r & wd' & evs & Erun & Hevs & Hall & Hfailed).
      exists r, wd'.
      exists (NewClient i a ((i + a) mod K) (Some key)
              :: ConsoleWarn (JsString.sliceLast 4 key) (i + 1) :: evs).
      split; [rewrite Estep; exact Erun|].
      split; [rewrite Hevs; unfold wd1; simpl; rewrite <- !app_assoc; reflexivity|].
      split; [|exact Hfailed].
      constructor; [exact I|]. constructor; [|exact Hall].
      split; [reflexivity|]. exists key. split; [|reflexivity].
      exact (nth_error_In _ _ Hkey).
Qed.

Lemma forEach_processSlice_warnings (svc : Service) (apiKeys : list string)
    (idxs : list nat) :
  forall wd,
  exists wd' evs,
    forEachM idxs (processSlice svc apiKeys) wd = Ret tt wd'
    /\ events wd' = events wd ++ evs
    /\ Forall (fun e => exists i, In i idxs /\ warningOf apiKeys i e) evs.
Proof.
  induction idxs as [|i idxs IH]; intros wd.
  - exists wd, []. split; [reflexivity|].
    split; [rewrite app_nil_r; reflexivity | constructor].
  - destruct (failoverLoop_warnings svc apiKeys i (S (List.length apiKeys)) 0 wd
                ltac:(lia) ltac:(lia))
      as (r & wd1 & evs1 & Erun1 & He1 & Hall1 & _).
    assert (Hslice : exists wd2 evs2,
               processSlice svc apiKeys i wd = Ret tt wd2
               /\ events wd2 = events wd ++ evs2
               /\ Forall (warningOf apiKeys i) evs2).
    { unfold processSlice, bind. rewrite Erun1.
      destruct (negb (fst r)).
      - exists (logged (ConsoleError (i + 1)) wd1), (evs1 ++ [ConsoleError (i + 1)]).
        split; [reflexivity|].
        split; [simpl; rewrite He1, <- app_assoc; reflexivity|].
        apply Forall_app. split; [exact Hall1 | repeat constructor].
      - exists wd1, evs1. split; [reflexivity|]. split; [exact He1 | exact Hall1]. }
    destruct Hslice as (wd2 & evs2 & Erun2 & He2 & Hall2).
    destruct (IH wd2) as (wd' & evs & Erun & He & Hall).
    exists wd', (evs2 ++ evs).
    split; [cbn [forEachM]; unfold bind; rewrite Erun2; exact Erun|].
    split; [rewrite He, He2, <- app_assoc; reflexivity|].
    apply Forall_app. split.
    + eapply Forall_impl; [|exact Hall2]. cbv beta. intros e He'.
      exists i. split; [left; reflexivity | exact He'].
    + eapply Forall_impl; [|exact Hall]. cbv beta. intros e (j & Hj & He').
      exists j. split; [right; exact Hj | exact He'].
Qed.

(** X16. Every warning that the loop over the slices logs names a slice of
    the run (counted from 1) and shows of a key only [key.slice(-4)], for a
    key of the pool: the text of at most four UTF-16 code units, the last of
    the key.  For a key of ASCII characters these are its last four
    characters at most. *)
Theorem warnings_show_key_tail (svc : Service) (apiKeys : list string)
    (slices : list Slice) (wd : world) :
  exists wd' evs,
    processSlices svc apiKeys slices wd = Ret tt wd'
    /\ events wd' = events wd ++ evs
    /\ forall keyTail sliceNo,
         In (ConsoleWarn keyTail sliceNo) evs ->
         (1 <= sliceNo <= List.length slices)%nat
         /\ exists key units,
             In key apiKeys
             /\ units = JsString.lastUnits 4 (JsString.toUnits key)
             /\ (List.length units <= 4)%nat
             /\ (forall u, In u units -> In u (JsString.toUnits key))
             /\ keyTail = JsString.fromUnits units
             /\ (Forall (fun c => (N_of_ascii c < 128)%N) (chars key) ->
                 (String.length keyTail <= 4)%nat
                 /\ keyTail
                    = string_of_list_ascii
                        (skipn (List.length (chars key) - 4) (chars key))).
Proof.
  destruct (forEach_processSlice_warnings svc apiKeys
              (seq 0 (List.length slices)) wd)
    as (wd' & evs & Erun & Hevs & Hall).
  exists wd', evs. split; [exact Erun|]. split; [exact Hevs|].
  intros keyTail sliceNo Hin.
  rewrite Forall_forall in Hall.
  destruct (Hall _ Hin) as (i & Hi & Hno & key & Hkey & ->).
  apply in_seq in Hi. split; [lia|].
  exists key, (JsString.lastUnits 4 (JsString.toUnits key)).
  split; [exact Hkey|]. split; [reflexivity|].
  split; [apply lastUnits_length|].
  split; [intros u; apply lastUnits_In|].
  split; [reflexivity|].
  intros Hascii. rewrite (sliceLast_ascii 4 key Hascii).
  split; [|reflexivity].
  rewrite string_of_list_length, length_skipn. lia.
Qed.

Lemma warnings_show_key_tail_witness :
  (1 <= 1 <= 1)%nat
  /\ exists key units,
      In key Samples.keys2
      /\ units = JsString.lastUnits 4 (JsString.toUnits key)
      /\ (List.length units <= 4)%nat
      /\ "BBBB" = JsString.fromUnits units.
Proof.
  destruct (warnings_show_key_tail Samples.down Samples.keys2 [mkSlice 0 100]
              initWorld) as (wd' & evs & Erun & Hevs & Hall).
  assert (E : processSlices Samples.down Samples.keys2 [mkSlice 0 100] initWorld
              = Ret tt
                    {| allBlocks := [];
                       events := [ NewClient 0 0 0 (Some "key-AAAA");
                                   ConsoleWarn "AAAA" 1;
                                   NewClient 0 1 1 (Some "key-BBBB");
                                   ConsoleWarn "BBBB" 1; ConsoleError 1 ] |})
    by (vm_compute; reflexivity).
  rewrite E in Erun. injection Erun as <-. cbn [events initWorld app] in Hevs.
  subst evs.
  destruct (Hall "BBBB" 1%nat) as (Hno & key & units & Hkey & Hu & Hlen & _ & Htail & _).
  { right. right. right. left. reflexivity. }
  split; [exact Hno|].
  exists key, units. repeat split; assumption.
Defined.

Example warnings_of_a_failed_slice :
  exists wd',
    processSlices Samples.firstSliceFails Samples.keys2 [mkSlice 0 100] initWorld
    = Ret tt wd'
    /\ events wd'
       = [ NewClient 0 0 0 (Some "key-AAAA"); ConsoleWarn "AAAA" 1;
           NewClient 0 1 1 (Some "key-BBBB"); ConsoleWarn "BBBB" 1;
           ConsoleError 1 ].
Proof. eexists. split; [vm_compute; reflexivity | reflexivity]. Qed.

Lemma requests_of_a_run_witness :
  exists wd' evs,
    processSlices Samples.firstSliceFails Samples.keys2
                  [mkSlice 0 2996; mkSlice 2996 2004] initWorld = Ret tt wd'
    /\ events wd' = events initWorld ++ evs
    /\ requests evs
       = [ (0, 0, 0, Some "key-AAAA"); (0, 1, 1, Some "key-BBBB");
           (1, 0, 1, Some "key-BBBB") ]%nat.
Proof.
  destruct (requests_of_a_run Samples.firstSliceFails Samples.keys2
              [mkSlice 0 2996; mkSlice 2996 2004] initWorld)
    as (wd' & evs & Erun & Hevs & Hreq & _).
  exists wd', evs. split; [exact Erun|]. split; [exact Hevs|]. exact Hreq.
Defined.

(** ** Replies of the service at the edges *)

(** A number too small for a double is read as 0, which is falsy: the record
    is written with an empty text. *)
Example tiny_number_is_no_text :
  JSON.parse (Samples.quoted "[{'text': 1e-400}]")
  = Some (JArr [JObj [("text", JNum 1 (-400))]])
  /\ lineOf (JObj [("text", JNum 1 (-400))])
     = Some (categoryPrefix SPEECH ++ newline)%string
  /\ lineOf (JObj [("text", JNum 5 (-324))]) = None.
Proof. repeat split; vm_compute; reflexivity. Qed.

(** A record of the category [sfx], as the prompt spells it, goes through
    [processManhwa] without a prefix. *)
Example sfx_record_run :
  exists wd',
    processManhwa
      (fun _ _ => Resolves (Some (Samples.quoted
                                    "[{'text': 'Boom', 'category': 'sfx'}]")))
      (Samples.white 10 100) Samples.keys2 initWorld
    = Ret ("Boom" ++ newline)%string wd'.
Proof. eexists. vm_compute. reflexivity. Qed.

Example key_tail_of_a_key_that_is_not_ascii :
  JsString.sliceLast 4 "k-ключ" = "ключ"
  /\ JsString.sliceLast 4 "key-AAAA" = "AAAA"
  /\ JsString.sliceLast 4 "ab" = "ab".
Proof. repeat split; vm_compute; reflexivity. Qed.
